(** * mozIntl: the numeric core of shared/js/moz_intl.js

    A shallow embedding of the duration splitter, the pattern trimmer, the
    relative-time unit selection and the unit scale selection of
    [shared/js/moz_intl.js], with the properties of its specification.

    Numbers.  A finite JavaScript number is modelled by an exact rational
    ([Q]); [Math.round] is "floor of x + 1/2" (ties go up, as in
    JavaScript), [Math.floor] is [Qfloor].  Durations and time offsets are
    whole milliseconds, where the arithmetic of the code is exact.  The
    value that [getFormattedUnit] shows is a quotient, and there every
    operation is rounded to binary64 as the code does ([binary64]).  The
    values [NaN] and the infinities appear where the code tests for them
    or can produce them; they are the extra constructors of [number].

    Objects.  An object literal used as a table is an association list in
    insertion order (the order [for .. in] walks); a lookup that misses is
    [None], JavaScript's [undefined].

    Exceptions.  A function that can throw returns a [completion]. *)

From Stdlib Require Import ZArith QArith Qround Qabs Qpower List String Ascii Bool
  Lia Lqa.
Import ListNotations.

Local Open Scope string_scope.
Local Open Scope Z_scope.

(** ** Values, exceptions, objects *)

Inductive number : Type :=
| Num (q : Q)
| NaN
| PosInfinity
| NegInfinity.

Inductive exn : Type :=
| Error (msg : string)
| RangeError (msg : string)
| TypeError.

Inductive completion (A : Type) : Type :=
| Return (a : A)
| Throw (e : exn).
Arguments Return {A} a.
Arguments Throw {A} e.

Definition bind {A B : Type} (c : completion A) (k : A -> completion B)
  : completion B :=
  match c with
  | Return a => k a
  | Throw e => Throw e
  end.

Notation "'let*' x ':=' c 'in' k" := (bind c (fun x => k))
  (at level 10, x pattern, c at level 100, k at level 200).

(** [o[key]] on an object literal. *)
Fixpoint get {A : Type} (key : string) (o : list (string * A)) : option A :=
  match o with
  | [] => None
  | (k, a) :: o' => if (k =? key)%string then Some a else get key o'
  end.

(** Reading a property of [o[key]]: a [TypeError] when [o[key]] is
    [undefined].  The tables are taken with their own keys; a name that an
    object inherits from [Object.prototype] ([toString] and the like) is
    outside the model. *)
Definition member {A : Type} (key : string) (o : list (string * A))
  : completion A :=
  match get key o with
  | Some a => Return a
  | None => Throw TypeError
  end.

(** [Array.prototype.indexOf] on an array of strings; [None] is [-1]. *)
Fixpoint array_indexOf (name : string) (a : list string) : option nat :=
  match a with
  | [] => None
  | x :: a' =>
      if (x =? name)%string then Some O
      else option_map S (array_indexOf name a')
  end.

(** [Array.prototype.includes]. *)
Definition includes (a : list string) (x : string) : bool :=
  existsb (fun y => (y =? x)%string) a.

(** ** Math *)

Definition Math_round (x : Q) : Z := Qfloor (x + (1 # 2)).
Definition Math_floor (x : Q) : Z := Qfloor x.
Definition Qltb (x y : Q) : bool := negb (Qle_bool y x).

(** ** Double arithmetic *)

(** The floor of the binary logarithm of [|q|], for [q] other than 0. *)
Definition Qlog2 (q : Q) : Z :=
  let e := Z.log2 (Z.abs (Qnum q)) - Z.log2 (Zpos (Qden q)) in
  if Qle_bool (2 ^ e) (Qabs q) then e else e - 1.

Definition round_half_even (q : Q) : Z :=
  let f := Qfloor q in
  match Qcompare (q - inject_Z f) (1 # 2) with
  | Lt => f
  | Gt => f + 1
  | Eq => if Z.even f then f else f + 1
  end.

(** The binary64 number nearest to the rational [q], ties to even: 53
    significant bits, subnormal below 2^-1022, infinite from 2^1024 on.
    Every operation of IEEE 754 returns this rounding of its exact
    result.  The zero has no sign here. *)
Definition binary64 (q : Q) : number :=
  if Qeq_bool q 0 then Num 0
  else
    let e := Z.max (Qlog2 q) (-1022) - 52 in
    let r := (inject_Z (round_half_even (q / 2 ^ e)) * 2 ^ e)%Q in
    if Qle_bool (2 ^ 1024) (Qabs r)
    then if Qle_bool 0 q then PosInfinity else NegInfinity
    else Num (Qred r).

(** [x * y] and [x / y] for a finite [y]. *)
Definition double_mul (x : number) (y : Q) : number :=
  match x with
  | Num a => binary64 (a * y)
  | NaN => NaN
  | PosInfinity =>
      if Qltb 0 y then PosInfinity else if Qltb y 0 then NegInfinity else NaN
  | NegInfinity =>
      if Qltb 0 y then NegInfinity else if Qltb y 0 then PosInfinity else NaN
  end.

Definition double_div (x : number) (y : Q) : number :=
  match x with
  | Num a =>
      if Qeq_bool y 0
      then if Qltb 0 a then PosInfinity
           else if Qltb a 0 then NegInfinity else NaN
      else binary64 (a / y)
  | NaN => NaN
  | PosInfinity => if Qltb y 0 then NegInfinity else PosInfinity
  | NegInfinity => if Qltb y 0 then PosInfinity else NegInfinity
  end.

(** [Math.round] on a number: exact on a finite one, the identity on the
    others. *)
Definition Math_round_number (x : number) : number :=
  match x with
  | Num a => Num (inject_Z (Math_round a))
  | _ => x
  end.

(** ** Strings *)

(** [String.prototype.indexOf]: the first position of [t] in [s], or [-1]. *)
Definition indexOf (s t : string) : Z :=
  match index 0 t s with
  | Some i => Z.of_nat i
  | None => -1
  end.

(** [String.prototype.substring]: both positions are clamped to
    [0 .. length], and swapped when the first is the larger. *)
Definition clamp (len : nat) (z : Z) : nat :=
  Z.to_nat (Z.min (Z.max z 0) (Z.of_nat len)).

Definition js_substring (s : string) (indexStart indexEnd : Z) : string :=
  let a := clamp (length s) indexStart in
  let b := clamp (length s) indexEnd in
  substring (Nat.min a b) (Nat.max a b - Nat.min a b) s.

(** [String.prototype.replace] with a string pattern: the first occurrence
    only. *)
Definition replace (s token by_ : string) : string :=
  match index 0 token s with
  | Some i =>
      substring 0 i s ++ by_
        ++ substring (i + length token) (length s - (i + length token)) s
  | None => s
  end.

(** ** The tables *)

Module DurationElement.
Record t : Type := { value : Z; token : string }.
End DurationElement.

Module UnitDatum.
Record t : Type := { name : string; value : Z }.
End UnitDatum.

Module UnitGroup.
Record t : Type :=
  { units : list string; styles : list string; rounding : Q }.
End UnitGroup.

Definition durationFormatOrder : list string :=
  ["hour"; "minute"; "second"; "millisecond"].

Definition durationFormatElements : list (string * DurationElement.t) :=
  [ ("hour", {| DurationElement.value := 3600000; DurationElement.token := "hh" |});
    ("minute", {| DurationElement.value := 60000; DurationElement.token := "mm" |});
    ("second", {| DurationElement.value := 1000; DurationElement.token := "ss" |});
    (* rounding milliseconds to tens *)
    ("millisecond", {| DurationElement.value := 10; DurationElement.token := "SS" |}) ].

Definition unitFormatData : list (string * list UnitDatum.t) :=
  [ ("duration",
     [ {| UnitDatum.name := "second"; UnitDatum.value := 1 |};
       {| UnitDatum.name := "minute"; UnitDatum.value := 60 |};
       {| UnitDatum.name := "hour"; UnitDatum.value := 60 * 60 |};
       {| UnitDatum.name := "day"; UnitDatum.value := 24 * 60 * 60 |};
       {| UnitDatum.name := "month"; UnitDatum.value := 30 * 24 * 60 * 60 |} ]);
    ("digital",
     [ {| UnitDatum.name := "byte"; UnitDatum.value := 1 |};
       {| UnitDatum.name := "kilobyte"; UnitDatum.value := 1024 |};
       {| UnitDatum.name := "megabyte"; UnitDatum.value := 1024 * 1024 |};
       {| UnitDatum.name := "gigabyte"; UnitDatum.value := 1024 * 1024 * 1024 |};
       {| UnitDatum.name := "terabyte";
          UnitDatum.value := 1024 * 1024 * 1024 * 1024 |} ]) ].

Definition unitFormatGroups : list (string * UnitGroup.t) :=
  [ ("duration",
     {| UnitGroup.units := ["second"; "minute"; "hour"; "day"; "month"];
        UnitGroup.styles := ["narrow"];
        UnitGroup.rounding := 1%Q |});
    ("digital",
     {| UnitGroup.units := ["byte"; "kilobyte"; "megabyte"; "gigabyte"; "terabyte"];
        UnitGroup.styles := ["short"];
        UnitGroup.rounding := (8 # 10)%Q |}) ].

(** ** DurationFormat *)

(** [getDurationUnitIdx]: a falsy name (the empty string) takes the
    default. *)
Definition getDurationUnitIdx (name : string) (defaultValue : nat)
  : completion nat :=
  if (name =? EmptyString)%string then Return defaultValue
  else
    match array_indexOf name durationFormatOrder with
    | None => Throw (Error ("Unknown unit type: " ++ name))
    | Some pos => Return pos
    end.

(** The breakdown is the object [units]; its keys are inserted in loop
    order. *)
Definition breakdown : Type := list (string * Z).

(** The body of the [for] loop of [splitIntoTimeUnits], run [remaining]
    times from index [i]; the loop runs for [i = maxUnitIdx .. minUnitIdx],
    that is [minUnitIdx + 1 - maxUnitIdx] times, and not at all when
    [maxUnitIdx > minUnitIdx].  [durationFormatOrder[i]] out of range is
    [undefined], and destructuring [durationFormatElements[undefined]]
    throws. *)
Fixpoint split_loop (remaining i minUnitIdx : nat) (input : Q)
  (units : breakdown) : completion breakdown :=
  match remaining with
  | O => Return units
  | S remaining' =>
      match nth_error durationFormatOrder i with
      | None => Throw TypeError
      | Some key =>
          let* el := member key durationFormatElements in
          let value := DurationElement.value el in
          let m :=
            if (i =? minUnitIdx)%nat
            then Math_round (input / inject_Z value)
            else Math_floor (input / inject_Z value) in
          split_loop remaining' (S i) minUnitIdx
            (input - inject_Z m * inject_Z value)%Q
            (units ++ [(key, m)])%list
      end
  end.

Definition splitIntoTimeUnits (v : Q) (maxUnitIdx minUnitIdx : nat)
  : completion breakdown :=
  split_loop (S minUnitIdx - maxUnitIdx) maxUnitIdx minUnitIdx (Qabs v) [].

Definition trimDurationPattern (string_ maxUnit minUnit : string)
  : completion string :=
  let* maxEl := member maxUnit durationFormatElements in
  let* minEl := member minUnit durationFormatElements in
  let maxToken := DurationElement.token maxEl in
  let minToken := DurationElement.token minEl in
  (* We currently know of no format that would require reverse order *)
  Return (js_substring string_
            (indexOf string_ maxToken)
            (indexOf string_ minToken + Z.of_nat (length minToken))).

Module DurationOptions.
(** The [options] argument; [None] is a property that is not given. *)
Record t : Type := { maxUnit : option string; minUnit : option string }.
End DurationOptions.

Module ResolvedOptions.
Record t : Type := { maxUnit : string; minUnit : string }.
End ResolvedOptions.

(** What the closure returned by [DurationFormat] captures. *)
Record durationFormatter : Type :=
  { resolvedOptions : ResolvedOptions.t;
    maxUnitIdx : nat;
    minUnitIdx : nat }.

Definition DurationFormat (options : DurationOptions.t)
  : completion durationFormatter :=
  let resolved :=
    {| ResolvedOptions.maxUnit :=
         match DurationOptions.maxUnit options with
         | Some u => u
         | None => "hour"
         end;
       ResolvedOptions.minUnit :=
         match DurationOptions.minUnit options with
         | Some u => u
         | None => "second"
         end |} in
  let* maxIdx := getDurationUnitIdx (ResolvedOptions.maxUnit resolved) 0 in
  let* minIdx :=
    getDurationUnitIdx (ResolvedOptions.minUnit resolved)
      (List.length durationFormatOrder - 1) in
  Return {| resolvedOptions := resolved;
            maxUnitIdx := maxIdx;
            minUnitIdx := minIdx |}.

(** The first statements of [format]: the input is rounded to the closest
    visible unit, then split.  The rounded input is returned too, [format]
    reads its sign afterwards. *)
Definition format_duration (f : durationFormatter) (input : Q)
  : completion (Q * breakdown) :=
  let* minEl :=
    member (ResolvedOptions.minUnit (resolvedOptions f)) durationFormatElements in
  let minValue := DurationElement.value minEl in
  let input := (inject_Z (Math_round (input / inject_Z minValue))
                * inject_Z minValue)%Q in
  let* duration := splitIntoTimeUnits input (maxUnitIdx f) (minUnitIdx f) in
  Return (input, duration).

Section Format.
(** The collaborators of [format]: the localized pattern
    [durationPattern] and the [Intl.NumberFormat] instance. *)
Variable fmt : string.
Variable numFormatter_format : Z -> string.

Fixpoint fill_tokens (duration : breakdown) (string_ : string)
  : completion string :=
  match duration with
  | [] => Return string_
  | (unit, m) :: duration' =>
      let* el := member unit durationFormatElements in
      fill_tokens duration'
        (replace string_ (DurationElement.token el) (numFormatter_format m))
  end.

Definition format (f : durationFormatter) (input : Q) : completion string :=
  let* (input, duration) := format_duration f input in
  let* string_ :=
    trimDurationPattern fmt
      (ResolvedOptions.maxUnit (resolvedOptions f))
      (ResolvedOptions.minUnit (resolvedOptions f)) in
  let* string_ := fill_tokens duration string_ in
  if Qltb input 0 then Return ("-" ++ string_) else Return string_.
End Format.

(** The sum the breakdown stands for: each magnitude times the base value of
    its unit. *)
Fixpoint breakdown_total (units : breakdown) : Z :=
  match units with
  | [] => 0
  | (key, m) :: units' =>
      match get key durationFormatElements with
      | Some el => m * DurationElement.value el
      | None => 0
      end + breakdown_total units'
  end.

(** ** RelativeTimeFormat *)

Module Units.
(** The object built by [computeTimeUnits]. *)
Record t : Type :=
  { millisecond : Z; second : Z; minute : Z; hour : Z; day : Z;
    week : Z; month : Z; quarter : Z; year : Z }.

(** [units[key]]; [None] is [undefined]. *)
Definition get (units : t) (key : string) : option Z :=
  if (key =? "millisecond")%string then Some (millisecond units)
  else if (key =? "second")%string then Some (second units)
  else if (key =? "minute")%string then Some (minute units)
  else if (key =? "hour")%string then Some (hour units)
  else if (key =? "day")%string then Some (day units)
  else if (key =? "week")%string then Some (week units)
  else if (key =? "month")%string then Some (month units)
  else if (key =? "quarter")%string then Some (quarter units)
  else if (key =? "year")%string then Some (year units)
  else None.

Definition keys : list string :=
  ["millisecond"; "second"; "minute"; "hour"; "day"; "week"; "month";
   "quarter"; "year"].
End Units.

(** ECMA 402 rev 3., 1.3.4, ComputeTimeUnits *)
Definition computeTimeUnits (v : Q) : Units.t :=
  let millisecond := Math_round v in
  let second := Math_round (inject_Z millisecond / 1000) in
  let minute := Math_round (inject_Z second / 60) in
  let hour := Math_round (inject_Z minute / 60) in
  let day := Math_round (inject_Z hour / 24) in
  let rawYear := (inject_Z day * 400 / 146097)%Q in
  {| Units.millisecond := millisecond;
     Units.second := second;
     Units.minute := minute;
     Units.hour := hour;
     Units.day := day;
     Units.week := Math_round (inject_Z day / 7);
     Units.month := Math_round (rawYear * 12);
     Units.quarter := Math_round (rawYear * 4);
     Units.year := Math_round rawYear |}.

(** ECMA 402 rev 3., 1.3.4, GetBestMatchUnit *)
Definition getBestMatchUnit (units : Units.t) : string :=
  (* if (Math.abs(units.second) < 45) { return 'second'; } *)
  if Z.abs (Units.minute units) <? 45 then "minute"
  else if Z.abs (Units.hour units) <? 22 then "hour"
  (* Intl uses 26 days here *)
  else if Z.abs (Units.day units) <? 7 then "day"
  else if Z.abs (Units.week units) <? 4 then "week"
  else if Z.abs (Units.month units) <? 11 then "month"
  (* if (Math.abs(units.quarter) < 4) { return 'quarter'; } *)
  else "year".

Module RelativeOptions.
(** [options.unit] that is not given behaves as the string
    ["undefined"]: it is no key of [units] and it is concatenated as that
    text.  [style = None] is a style that is not given. *)
Record t : Type := { unit : string; style : option string }.
End RelativeOptions.

Module FormatId.
Record t : Type := { unit : string; value : number }.
End FormatId.

(** [Math.abs(v)] for [v = units[unit]]: [Math.abs(undefined)] is [NaN]. *)
Definition Math_abs_prop (v : option Z) : number :=
  match v with
  | Some z => Num (inject_Z (Z.abs z))
  | None => NaN
  end.

(** [v < 0] for [v = units[unit]]: [undefined < 0] is [false]. *)
Definition lt0_prop (v : option Z) : bool :=
  match v with
  | Some z => z <? 0
  | None => false
  end.

(** [options.style || 'long']: the empty string is falsy too. *)
Definition style_or_long (style : option string) : string :=
  match style with
  | Some s => if (s =? EmptyString)%string then "long" else s
  | None => "long"
  end.

Section Now.
(** [Date.now()]. *)
Variable Date_now : Q.

Definition relativeTimeFormatId (x : Q) (options : RelativeOptions.t)
  : FormatId.t :=
  let ms := (x - Date_now)%Q in
  let units := computeTimeUnits ms in
  let unit :=
    if (RelativeOptions.unit options =? "bestFit")%string
    then getBestMatchUnit units
    else RelativeOptions.unit options in
  let v := Units.get units unit in
  (* CLDR uses past || future *)
  let tl := if lt0_prop v then "-ago" else "-until" in
  let style := style_or_long (RelativeOptions.style options) in
  let entry := unit ++ "s" ++ tl ++ "-" ++ style in
  {| FormatId.unit := entry; FormatId.value := Math_abs_prop v |}.
End Now.

(** [_gaia.relativePart], on a finite number of milliseconds. *)
Definition relativePart (milliseconds : Q) : FormatId.t :=
  let units := computeTimeUnits milliseconds in
  let unit := getBestMatchUnit units in
  {| FormatId.unit := unit ++ "s";
     FormatId.value := Math_abs_prop (Units.get units unit) |}.

(** ** RelativeDate *)

(** The time handed to [RelativeDate]'s [format]: a finite timestamp in
    milliseconds, or [NaN] (an invalid date). *)
Inductive time : Type :=
| Time (ms : Q)
| TimeNaN.

(** What [format] hands back: the message [incorrectDate], the absolute
    date of [Intl.DateTimeFormat], or the message of a relative time with
    its [value] argument. *)
Inductive relativeDate_result : Type :=
| incorrectDate
| absoluteDate (text : string)
| relativeTime (id : FormatId.t).

(** [maxDiff || 86400 * 10]: [undefined] and [0] are falsy. *)
Definition maxDiff_or_default (maxDiff : option Q) : Q :=
  match maxDiff with
  | Some q => if Qeq_bool q 0 then (86400 * 10)%Q else q
  | None => (86400 * 10)%Q
  end.

(** [options && options.style || 'long']; the outer [None] is a call
    without options. *)
Definition RelativeDate_style (options : option (option string)) : string :=
  match options with
  | Some style => style_or_long style
  | None => "long"
  end.

Section RelativeDate.
(** [Date.now()] and the [format] of the [Intl.DateTimeFormat] instance. *)
Variable Date_now : Q.
Variable maxFormatter_format : Q -> string.

(** [RelativeDate(locales, options).format(time, maxDiff)]; the option
    [minUnit: 'minute'] it passes on is not read by
    [relativeTimeFormatId]. *)
Definition RelativeDate_format (options : option (option string))
  (time_ : time) (maxDiff : option Q) : relativeDate_result :=
  let style := RelativeDate_style options in
  let relativeFmtOptions :=
    {| RelativeOptions.unit := "bestFit";
       RelativeOptions.style := Some style |} in
  let maxDiff := maxDiff_or_default maxDiff in (* default = 10 days *)
  match time_ with
  | TimeNaN => incorrectDate
  | Time t =>
      let secDiff := ((Date_now - t) / 1000)%Q in
      if Qltb maxDiff secDiff
      then absoluteDate (maxFormatter_format t)
      else relativeTime (relativeTimeFormatId Date_now t relativeFmtOptions)
  end.
End RelativeDate.

(** ** UnitFormat and getFormattedUnit *)

(** What the functions hand to the localization resolver:
    [document.l10n.formatValue(id, {value})], or a promise that is already
    resolved with [undefined]. *)
Inductive promise : Type :=
| resolve_undefined
| formatValue (id : string) (value : number).

Fixpoint getUnitFormatGroupName_in (groups : list (string * UnitGroup.t))
  (unitName : string) : option string :=
  match groups with
  | [] => None
  | (groupName, g) :: groups' =>
      if includes (UnitGroup.units g) unitName then Some groupName
      else getUnitFormatGroupName_in groups' unitName
  end.

Definition getUnitFormatGroupName (unitName : string) : option string :=
  getUnitFormatGroupName_in unitFormatGroups unitName.

(** [UnitFormat(locales, {unit, style})]: the formatter it returns captures
    the message id. *)
Definition UnitFormat (unit style : string) : completion string :=
  match getUnitFormatGroupName unit with
  | None => Throw (RangeError ("invalid value " ++ unit ++ " for option unit"))
  | Some unitGroup =>
      let* g := member unitGroup unitFormatGroups in
      if negb (includes (UnitGroup.styles g) style)
      then Throw (RangeError ("invalid value " ++ style ++ " for option style"))
      else Return (unitGroup ++ "-" ++ unit ++ "-" ++ style)
  end.

Definition UnitFormat_format (unit : string) (x : number) : promise :=
  formatValue unit x.

(** [isNaN(parseInt(v))] on a number: [parseInt] reads the decimal text of
    [v]; the text of a finite number starts with an optional minus sign and
    a digit, so the result is a number, and the texts [NaN], [Infinity] and
    [-Infinity] give [NaN]. *)
Definition isNaN_parseInt (v : number) : bool :=
  match v with
  | Num _ => false
  | NaN | PosInfinity | NegInfinity => true
  end.

(** The [for] loop of [getFormattedUnit], run [remaining] times from index
    [i]; it runs for [i = 1 .. units.length - 1].  The result is the final
    [scale]. *)
Fixpoint scale_loop (remaining i : nat) (units : list UnitDatum.t)
  (rounding v : Q) (scale : nat) : completion nat :=
  match remaining with
  | O => Return scale
  | S remaining' =>
      match nth_error units i with
      | None => Throw TypeError
      | Some u =>
          if Qltb v (inject_Z (UnitDatum.value u) * rounding)
          then Return (i - 1)%nat
          else
            scale_loop remaining' (S i) units rounding v
              (if (i =? List.length units - 1)%nat then i else scale)
      end
  end.

Definition getFormattedUnit (type style : string) (v : number)
  : completion promise :=
  if isNaN_parseInt v then Return resolve_undefined
  else
    match v with
    | Num v =>
        match get type unitFormatData with
        | None => Throw (RangeError ("invalid type " ++ type))
        | Some units =>
            let* g := member type unitFormatGroups in
            if negb (includes (UnitGroup.styles g) style)
            then
              Throw (RangeError
                       ("invalid style " ++ style ++ " for type " ++ type))
            else
              let* scale :=
                scale_loop (List.length units - 1) 1 units
                  (UnitGroup.rounding g) v 0 in
              match nth_error units scale with
              | None => Throw TypeError
              | Some u =>
                  let value :=
                    double_div
                      (Math_round_number
                         (double_mul
                            (double_div (Num v) (inject_Z (UnitDatum.value u)))
                            100))
                      100 in
                  let* unit := UnitFormat (UnitDatum.name u) style in
                  Return (UnitFormat_format unit value)
              end
        end
    | _ => Return resolve_undefined
    end.

(** ** The specification's wording, for comparison with the code *)

Module Spec.
(** [computeUnits] as the specification words it: the cascade
    millisecond, second, minute, hour, day, then week and the raw year
    from the day. *)
Definition round (x : Q) : Z := Qfloor (x + (1 # 2)).

Definition millisecond (diffMs : Q) : Z := round diffMs.
Definition second (diffMs : Q) : Z := round (inject_Z (millisecond diffMs) / 1000).
Definition minute (diffMs : Q) : Z := round (inject_Z (second diffMs) / 60).
Definition hour (diffMs : Q) : Z := round (inject_Z (minute diffMs) / 60).
Definition day (diffMs : Q) : Z := round (inject_Z (hour diffMs) / 24).
Definition week (diffMs : Q) : Z := round (inject_Z (day diffMs) / 7).
Definition rawYear (diffMs : Q) : Q := (inject_Z (day diffMs) * (400 # 146097))%Q.
Definition month (diffMs : Q) : Z := round (rawYear diffMs * 12).
Definition quarter (diffMs : Q) : Z := round (rawYear diffMs * 4).
Definition year (diffMs : Q) : Z := round (rawYear diffMs).

(** A unit recomputed from the raw millisecond value, which the cascade
    is said not to do. *)
Definition minute_from_raw (diffMs : Q) : Z := round (diffMs / 60000).

(** [bestFit]: the ordered threshold table, first match wins. *)
Definition thresholds : list ((Units.t -> Z) * Z * string) :=
  [ (Units.minute, 45, "minute");
    (Units.hour, 22, "hour");
    (Units.day, 7, "day");
    (Units.week, 4, "week");
    (Units.month, 11, "month") ].

Fixpoint first_match (table : list ((Units.t -> Z) * Z * string))
  (units : Units.t) : string :=
  match table with
  | [] => "year"
  | (field, bound, name) :: table' =>
      if Z.abs (field units) <? bound then name
      else first_match table' units
  end.

Definition bestFit (units : Units.t) : string := first_match thresholds units.

(** [selectScale]: the first index [i], from the second unit upward, with
    [magnitude < units[i].baseValue * roundingFactor]. *)
Fixpoint first_index (i : nat) (units : list UnitDatum.t)
  (roundingFactor magnitude : Q) : option nat :=
  match units with
  | [] => None
  | u :: units' =>
      if Qltb magnitude (inject_Z (UnitDatum.value u) * roundingFactor)
      then Some i
      else first_index (S i) units' roundingFactor magnitude
  end.

Definition scale (units : list UnitDatum.t) (roundingFactor magnitude : Q)
  : nat :=
  match first_index 1 (tl units) roundingFactor magnitude with
  | Some i => (i - 1)%nat
  | None => (List.length units - 1)%nat
  end.
End Spec.

(** ** Auxiliary definitions of the statements *)

(** The options of the best-fit, long-style formatter. *)
Definition bestFit_long : RelativeOptions.t :=
  {| RelativeOptions.unit := "bestFit"; RelativeOptions.style := Some "long" |}.

(** The base value of the unit at index [i] of [durationFormatOrder]. *)
Definition unit_value (i : nat) : Z :=
  match nth_error durationFormatOrder i with
  | Some key =>
      match get key durationFormatElements with
      | Some el => DurationElement.value el
      | None => 0
      end
  | None => 0
  end.

(** A breakdown whose entries are the units from index [i] on, in order,
    each magnitude non-negative, the first worth at most [bound] and every
    later one worth less than one unit of its predecessor. *)
Fixpoint chain (bound : Z) (i : nat) (units : breakdown) : Prop :=
  match units with
  | [] => True
  | (key, m) :: units' =>
      nth_error durationFormatOrder i = Some key
      /\ 0 <= m
      /\ m * unit_value i <= bound
      /\ chain (unit_value i - 1) (S i) units'
  end.

(** [t] occurs in [s] at position [p]. *)
Definition occurs_at (t s : string) (p : nat) : Prop :=
  substring p (length t) s = t.

(** [p] is the first position at which [t] occurs in [s]. *)
Definition first_occurrence (t s : string) (p : nat) : Prop :=
  occurs_at t s p /\ forall q, (q < p)%nat -> ~ occurs_at t s q.

(** Every count of [u1] is at most the same count of [u2]. *)
Definition Units_le (u1 u2 : Units.t) : Prop :=
  Units.millisecond u1 <= Units.millisecond u2
  /\ Units.second u1 <= Units.second u2
  /\ Units.minute u1 <= Units.minute u2
  /\ Units.hour u1 <= Units.hour u2
  /\ Units.day u1 <= Units.day u2
  /\ Units.week u1 <= Units.week u2
  /\ Units.month u1 <= Units.month u2
  /\ Units.quarter u1 <= Units.quarter u2
  /\ Units.year u1 <= Units.year u2.

(** * Properties *)

(** ** Rounding *)

Lemma Math_round_comp (x y : Q) : (x == y)%Q -> Math_round x = Math_round y.
Proof.
  intros E. unfold Math_round. apply Qfloor_comp. rewrite E. reflexivity.
Qed.

Lemma Math_round_Z (z : Z) : Math_round (inject_Z z) = z.
Proof.
  unfold Math_round, Qfloor, inject_Z, Qplus. simpl.
  symmetry. apply Z.div_unique with (r := 1); lia.
Qed.

(** ** BestFitUnitSelector *)

(** C2: [computeTimeUnits] is the cascade of the specification, each unit
    rounded from the previous rounded unit (week, month, quarter and year
    from the day), and the cascade is not the rounding of the raw
    millisecond value: at 29500 ms the minute is 1, where the raw value
    rounds to 0 minutes. *)
Theorem computeTimeUnits_cascade :
  (forall diffMs : Q,
      computeTimeUnits diffMs
      = {| Units.millisecond := Spec.millisecond diffMs;
           Units.second := Spec.second diffMs;
           Units.minute := Spec.minute diffMs;
           Units.hour := Spec.hour diffMs;
           Units.day := Spec.day diffMs;
           Units.week := Spec.week diffMs;
           Units.month := Spec.month diffMs;
           Units.quarter := Spec.quarter diffMs;
           Units.year := Spec.year diffMs |})
  /\ Units.minute (computeTimeUnits 29500) = 1
  /\ Spec.minute_from_raw 29500 = 0.
Proof.
  split; [ | split; vm_compute; reflexivity ].
  intros diffMs.
  unfold computeTimeUnits, Spec.year, Spec.quarter, Spec.month, Spec.rawYear,
    Spec.week, Spec.day, Spec.hour, Spec.minute, Spec.second,
    Spec.millisecond, Spec.round, Math_round.
  cbv zeta.
  set (day := Qfloor (inject_Z (Qfloor (inject_Z (Qfloor (inject_Z
                (Qfloor (inject_Z (Qfloor (diffMs + (1 # 2))) / 1000
                         + (1 # 2))) / 60 + (1 # 2))) / 60 + (1 # 2)))
                / 24 + (1 # 2))).
  assert (R : forall k : Q,
             Qfloor (inject_Z day * 400 / 146097 * k + (1 # 2))
             = Qfloor (inject_Z day * (400 # 146097) * k + (1 # 2))).
  { intros k. apply Qfloor_comp. field. }
  assert (R1 : Qfloor (inject_Z day * 400 / 146097 + (1 # 2))
               = Qfloor (inject_Z day * (400 # 146097) + (1 # 2))).
  { apply Qfloor_comp. field. }
  rewrite !R, R1. reflexivity.
Qed.

Lemma getBestMatchUnit_table (units : Units.t) :
  getBestMatchUnit units = Spec.bestFit units.
Proof.
  unfold getBestMatchUnit, Spec.bestFit, Spec.thresholds. simpl.
  reflexivity.
Qed.

(** C3: [getBestMatchUnit] returns the first match of the ordered
    thresholds on the absolute magnitudes (minute 45, hour 22, day 7,
    week 4, month 11, else year); it never returns second or quarter; ten
    days give week. *)
Theorem getBestMatchUnit_thresholds :
  (forall units : Units.t,
      let r := getBestMatchUnit units in
      r = Spec.bestFit units
      /\ (Z.abs (Units.minute units) < 45 -> r = "minute")
      /\ (45 <= Z.abs (Units.minute units) ->
          Z.abs (Units.hour units) < 22 -> r = "hour")
      /\ (45 <= Z.abs (Units.minute units) ->
          22 <= Z.abs (Units.hour units) ->
          Z.abs (Units.day units) < 7 -> r = "day")
      /\ (45 <= Z.abs (Units.minute units) ->
          22 <= Z.abs (Units.hour units) ->
          7 <= Z.abs (Units.day units) ->
          Z.abs (Units.week units) < 4 -> r = "week")
      /\ (45 <= Z.abs (Units.minute units) ->
          22 <= Z.abs (Units.hour units) ->
          7 <= Z.abs (Units.day units) ->
          4 <= Z.abs (Units.week units) ->
          Z.abs (Units.month units) < 11 -> r = "month")
      /\ (45 <= Z.abs (Units.minute units) ->
          22 <= Z.abs (Units.hour units) ->
          7 <= Z.abs (Units.day units) ->
          4 <= Z.abs (Units.week units) ->
          11 <= Z.abs (Units.month units) -> r = "year")
      /\ r <> "second" /\ r <> "quarter")
  /\ (forall diffMs : Q,
         getBestMatchUnit (computeTimeUnits diffMs) <> "second"
         /\ getBestMatchUnit (computeTimeUnits diffMs) <> "quarter")
  /\ getBestMatchUnit (computeTimeUnits (10 * 24 * 3600000)) = "week".
Proof.
  assert (G : forall units : Units.t,
             getBestMatchUnit units <> "second"
             /\ getBestMatchUnit units <> "quarter").
  { intros units. unfold getBestMatchUnit.
    repeat match goal with
           | |- context [?a <? ?b] => destruct (a <? b)
           end; split; discriminate. }
  split; [ | split; [ intros; apply G | reflexivity ] ].
  intros units r.
  split; [ apply getBestMatchUnit_table | ].
  repeat split; try apply G; subst r; unfold getBestMatchUnit; intros;
    repeat match goal with
      | H : _ < _ |- _ => apply Z.ltb_lt in H; rewrite H; clear H
      | H : _ <= _ |- _ => apply Z.ltb_ge in H; rewrite H; clear H
      end; reflexivity.
Qed.

(** ** RelativeKeyResolver *)

Lemma computeTimeUnits_comp (x y : Q) :
  (x == y)%Q -> computeTimeUnits x = computeTimeUnits y.
Proof.
  intros E. unfold computeTimeUnits.
  rewrite (Math_round_comp x y E). reflexivity.
Qed.

(** C5: the code two seconds in the past, with best fit and long style:
    the key is minutes-until-long with magnitude 0, where the doc comment
    of [RelativeTimeFormat] tells this very call as "ago".  The rounded
    minute count is 0 (the [-0] of [Math.round]), which is not below 0, so
    the sign of the difference is lost. *)
Theorem relativeTimeFormatId_two_seconds_ago (now : Q) :
  relativeTimeFormatId now (now - 2000) bestFit_long
  = {| FormatId.unit := "minutes-until-long"; FormatId.value := Num 0 |}.
Proof.
  unfold relativeTimeFormatId.
  rewrite (computeTimeUnits_comp (now - 2000 - now) (-2000)) by ring.
  reflexivity.
Qed.

(** Two seconds in the past the key is not minutes-ago-long. *)
Lemma relativeTimeFormatId_two_seconds_ago_not_ago :
  FormatId.unit (relativeTimeFormatId 1000000 (1000000 - 2000) bestFit_long)
  <> "minutes-ago-long".
Proof. vm_compute. discriminate. Qed.

Lemma getBestMatchUnit_key (units : Units.t) :
  exists v, Units.get units (getBestMatchUnit units) = Some v.
Proof.
  unfold getBestMatchUnit.
  repeat match goal with
         | |- context [?a <? ?b] => destruct (a <? b)
         end; eexists; reflexivity.
Qed.

Lemma Units_get_key (units : Units.t) (key : string) :
  In key Units.keys -> exists v, Units.get units key = Some v.
Proof.
  unfold Units.keys. simpl.
  intros H.
  repeat match goal with
         | H : _ \/ _ |- _ => destruct H as [H | H]
         end; try contradiction; subst key; eexists; reflexivity.
Qed.

(** C6: for a unit that is bestFit or a key of the units,
    [relativeTimeFormatId] returns the key unit+s+tense+-+style, the tense
    -ago when the rounded magnitude [v] of the unit is below 0 and -until
    otherwise, the style long when none is given, and the magnitude
    [|v|], which is not negative. *)
Theorem relativeTimeFormatId_key (now x : Q) (unit : string)
  (style : option string) :
  unit = "bestFit" \/ In unit Units.keys ->
  let units := computeTimeUnits (x - now) in
  let r := relativeTimeFormatId now x
             {| RelativeOptions.unit := unit; RelativeOptions.style := style |} in
  exists (u : string) (v : Z) (tense style' : string),
    (unit = "bestFit" -> u = getBestMatchUnit units)
    /\ (unit <> "bestFit" -> u = unit)
    /\ Units.get units u = Some v
    /\ FormatId.unit r = u ++ "s" ++ tense ++ "-" ++ style'
    /\ (v < 0 -> tense = "-ago")
    /\ (0 <= v -> tense = "-until")
    /\ (style = None -> style' = "long")
    /\ (forall s, style = Some s -> s <> EmptyString -> style' = s)
    /\ FormatId.value r = Num (inject_Z (Z.abs v))
    /\ 0 <= Z.abs v.
Proof.
  intros Hunit units r.
  set (u := if (unit =? "bestFit")%string then getBestMatchUnit units else unit).
  assert (Hv : exists v, Units.get units u = Some v).
  { subst u. destruct (String.eqb_spec unit "bestFit") as [E | N].
    - apply getBestMatchUnit_key.
    - destruct Hunit as [E | K]; [ contradiction | ].
      now apply Units_get_key. }
  destruct Hv as [v Hv].
  exists u, v, (if v <? 0 then "-ago" else "-until"), (style_or_long style).
  repeat split.
  - intros E. subst u. rewrite E. reflexivity.
  - intros N. subst u. apply String.eqb_neq in N. rewrite N. reflexivity.
  - exact Hv.
  - subst r. unfold relativeTimeFormatId. simpl.
    fold units. fold u. rewrite Hv. reflexivity.
  - intros L. apply Z.ltb_lt in L. rewrite L. reflexivity.
  - intros L. apply Z.ltb_ge in L. rewrite L. reflexivity.
  - intros E. subst style. reflexivity.
  - intros s E N. subst style. simpl.
    apply String.eqb_neq in N. rewrite N. reflexivity.
  - subst r. unfold relativeTimeFormatId. simpl.
    fold units. fold u. rewrite Hv. reflexivity.
  - apply Z.abs_nonneg.
Qed.

Lemma relativeTimeFormatId_key_witness :
  exists (u : string) (v : Z) (tense style' : string),
    ("hour" = "bestFit" -> u = getBestMatchUnit (computeTimeUnits (0 - 7200000)))
    /\ ("hour" <> "bestFit" -> u = "hour")
    /\ Units.get (computeTimeUnits (0 - 7200000)) u = Some v
    /\ FormatId.unit
         (relativeTimeFormatId 7200000 0
            {| RelativeOptions.unit := "hour"; RelativeOptions.style := None |})
       = u ++ "s" ++ tense ++ "-" ++ style'
    /\ (v < 0 -> tense = "-ago")
    /\ (0 <= v -> tense = "-until")
    /\ (@None string = None -> style' = "long")
    /\ (forall s, None = Some s -> s <> EmptyString -> style' = s)
    /\ FormatId.value
         (relativeTimeFormatId 7200000 0
            {| RelativeOptions.unit := "hour"; RelativeOptions.style := None |})
       = Num (inject_Z (Z.abs v))
    /\ 0 <= Z.abs v.
Proof.
  apply (relativeTimeFormatId_key 7200000 0 "hour" None).
  right. simpl. tauto.
Defined.

(** ** ScaledUnitSelector *)

Lemma Qltb_lt (x y : Q) : Qltb x y = true <-> (x < y)%Q.
Proof.
  unfold Qltb. rewrite negb_true_iff, <- not_true_iff_false, Qle_bool_iff.
  split; [ apply Qnot_le_lt | apply Qlt_not_le ].
Qed.

Lemma Qltb_nlt (x y : Q) : Qltb x y = false <-> ~ (x < y)%Q.
Proof.
  rewrite <- Qltb_lt. destruct (Qltb x y); split; congruence.
Qed.

Section ScaleLoop.
Variable units : list UnitDatum.t.
Variables rounding v : Q.

Let below (u : UnitDatum.t) : Prop :=
  (v < inject_Z (UnitDatum.value u) * rounding)%Q.

Lemma first_index_Some (l : list UnitDatum.t) (i k : nat) :
  Spec.first_index i l rounding v = Some k ->
  exists j u,
    k = (i + j)%nat /\ nth_error l j = Some u /\ below u
    /\ forall j' u', (j' < j)%nat -> nth_error l j' = Some u' -> ~ below u'.
Proof.
  revert i. induction l as [ | a l IH ]; intros i; simpl.
  - discriminate.
  - destruct (Qltb v (inject_Z (UnitDatum.value a) * rounding)) eqn:E.
    + intros [= <-]. exists O, a.
      split; [ lia | split; [ reflexivity | split ] ].
      * now apply Qltb_lt.
      * intros j' u' L. lia.
    + intros H. destruct (IH _ H) as (j & u & -> & N & B & F).
      exists (S j), u.
      split; [ lia | split; [ exact N | split; [ exact B | ] ] ].
      intros [ | j' ] u' L; simpl.
      * intros [= <-]. now apply Qltb_nlt.
      * apply F. lia.
Qed.

Lemma first_index_None (l : list UnitDatum.t) (i : nat) :
  Spec.first_index i l rounding v = None ->
  forall j u, nth_error l j = Some u -> ~ below u.
Proof.
  revert i. induction l as [ | a l IH ]; intros i; simpl.
  - intros _ [ | j ] u; discriminate.
  - destruct (Qltb v (inject_Z (UnitDatum.value a) * rounding)) eqn:E.
    + discriminate.
    + intros H [ | j ] u; simpl.
      * intros [= <-]. now apply Qltb_nlt.
      * now apply (IH _ H).
Qed.

Lemma scale_loop_first_index (remaining i scale : nat) :
  (i + remaining = List.length units)%nat ->
  scale_loop remaining i units rounding v scale
  = Return
      match Spec.first_index i (skipn i units) rounding v with
      | Some k => (k - 1)%nat
      | None =>
          if (remaining =? 0)%nat then scale else (List.length units - 1)%nat
      end.
Proof.
  revert i scale. induction remaining as [ | remaining IH ]; intros i scale L.
  - rewrite skipn_all2 by lia. reflexivity.
  - simpl scale_loop.
    destruct (nth_error units i) as [ u | ] eqn:N.
    2:{ apply nth_error_None in N. lia. }
    assert (Sk : skipn i units = u :: skipn (S i) units).
    { clear - N. revert i N.
      induction units as [ | a l IHl ]; intros [ | i ] N; try discriminate.
      - now injection N as ->.
      - simpl in N. apply IHl in N. exact N. }
    rewrite Sk. cbn [Spec.first_index].
    destruct (Qltb v (inject_Z (UnitDatum.value u) * rounding)); [ reflexivity | ].
    rewrite IH by lia.
    destruct (Spec.first_index (S i) (skipn (S i) units) rounding v);
      [ reflexivity | ].
    simpl Nat.eqb.
    destruct (Nat.eqb_spec remaining 0) as [ E | ]; [ | reflexivity ].
    replace (i =? List.length units - 1)%nat with true; [ f_equal; lia | ].
    symmetry. apply Nat.eqb_eq. lia.
Qed.

(** The loop of the code computes the scale of the specification. *)
Lemma scale_loop_spec :
  scale_loop (List.length units - 1) 1 units rounding v 0
  = Return (Spec.scale units rounding v).
Proof.
  unfold Spec.scale.
  destruct units as [ | a l ] eqn:U; [ reflexivity | ].
  rewrite <- U. rewrite scale_loop_first_index by (subst; simpl; lia).
  subst. simpl skipn. simpl tl.
  destruct (Spec.first_index 1 l rounding v); [ reflexivity | ].
  simpl. destruct l; reflexivity.
Qed.

(** The scale of the specification, as a relation: one less than the
    first index from 1 whose threshold is above the magnitude, or the
    last index when there is none. *)
Lemma scale_first_below :
  let scale := Spec.scale units rounding v in
  (exists i ui,
      (1 <= i)%nat /\ nth_error units i = Some ui /\ below ui
      /\ (forall j uj, (1 <= j < i)%nat -> nth_error units j = Some uj ->
                       ~ below uj)
      /\ scale = (i - 1)%nat)
  \/ ((forall j uj, (1 <= j)%nat -> nth_error units j = Some uj -> ~ below uj)
      /\ scale = (List.length units - 1)%nat).
Proof.
  unfold Spec.scale.
  assert (T : forall j, nth_error (tl units) j = nth_error units (S j)).
  { destruct units; [ now intros [ | ] | reflexivity ]. }
  destruct (Spec.first_index 1 (tl units) rounding v) as [ k | ] eqn:E.
  - left. destruct (first_index_Some _ _ _ E) as (j & u & -> & N & B & F).
    exists (S j), u.
    split; [ lia | split; [ now rewrite <- T | split; [ exact B | split ] ] ].
    + intros [ | j' ] uj L Nj; [ lia | ].
      apply (F j'); [ lia | now rewrite T ].
    + f_equal.
  - right. split; [ | reflexivity ].
    intros [ | j ] uj L Nj; [ lia | ].
    apply (first_index_None _ _ E j). now rewrite T.
Qed.

Lemma scale_in_range :
  units <> [] -> (Spec.scale units rounding v < List.length units)%nat.
Proof.
  intros NE.
  destruct scale_first_below as [ (i & ui & L & N & _ & _ & E) | (_ & E) ];
    rewrite E.
  - assert (i < List.length units)%nat; [ | lia ].
    apply nth_error_Some. congruence.
  - destruct units; [ contradiction | simpl; lia ].
Qed.
End ScaleLoop.

Lemma unitFormat_tables (type : string) (units : list UnitDatum.t)
  (g : UnitGroup.t) :
  get type unitFormatData = Some units ->
  get type unitFormatGroups = Some g ->
  (type = "duration" \/ type = "digital")
  /\ get type unitFormatData = Some units
  /\ get type unitFormatGroups = Some g.
Proof.
  intros D G. split; [ | now split ].
  unfold unitFormatData in D. cbn [get] in D.
  destruct (String.eqb_spec "duration" type); [ now left | ].
  destruct (String.eqb_spec "digital" type); [ now right | discriminate ].
Qed.

(** A unit of a group's table, formatted in a style of the group, has the
    message id group-unit-style. *)
Lemma UnitFormat_of_table (type style : string) (units : list UnitDatum.t)
  (g : UnitGroup.t) (scale : nat) (u : UnitDatum.t) :
  get type unitFormatData = Some units ->
  get type unitFormatGroups = Some g ->
  includes (UnitGroup.styles g) style = true ->
  nth_error units scale = Some u ->
  UnitFormat (UnitDatum.name u) style
  = Return (type ++ "-" ++ UnitDatum.name u ++ "-" ++ style).
Proof.
  intros D G I N.
  destruct (unitFormat_tables _ _ _ D G) as ([ -> | -> ] & _ & _);
    cbn in D, G; injection D as <-; injection G as <-;
    do 5 (destruct scale as [ | scale ];
          [ injection N as <-; unfold UnitFormat; cbn;
            cbn in I; rewrite I; reflexivity | ]);
    destruct scale; discriminate.
Qed.

(** C7: for a group of the table, a style of the group and a finite
    magnitude, [getFormattedUnit] formats round(v / base * 100) / 100, in
    the double arithmetic of the code, in the unit at the scale that is
    one less than the first index from 1 with v < base * rounding, or the
    last index when there is none; 1536 in the digital group is 1.5
    kilobyte.  Where the roundings matter: 1500 bytes are the double
    nearest to 1.46 kilobyte, 1945 bytes are 1.9 kilobyte, and 3618
    seconds are 1 hour, the quotient 3618 / 3600 being a double below
    1.005. *)
Theorem getFormattedUnit_scale :
  (forall (type style : string) (units : list UnitDatum.t) (g : UnitGroup.t)
          (v : Q),
      get type unitFormatData = Some units ->
      get type unitFormatGroups = Some g ->
      includes (UnitGroup.styles g) style = true ->
      exists (scale : nat) (u : UnitDatum.t),
        nth_error units scale = Some u
        /\ getFormattedUnit type style (Num v)
           = Return
               (formatValue (type ++ "-" ++ UnitDatum.name u ++ "-" ++ style)
                  (double_div
                     (Math_round_number
                        (double_mul
                           (double_div (Num v) (inject_Z (UnitDatum.value u)))
                           100))
                     100))
        /\ ((exists i ui,
                (1 <= i)%nat /\ nth_error units i = Some ui
                /\ (v < inject_Z (UnitDatum.value ui) * UnitGroup.rounding g)%Q
                /\ (forall j uj,
                       (1 <= j < i)%nat -> nth_error units j = Some uj ->
                       ~ (v < inject_Z (UnitDatum.value uj)
                              * UnitGroup.rounding g)%Q)
                /\ scale = (i - 1)%nat)
            \/ ((forall j uj,
                    (1 <= j)%nat -> nth_error units j = Some uj ->
                    ~ (v < inject_Z (UnitDatum.value uj)
                           * UnitGroup.rounding g)%Q)
                /\ scale = (List.length units - 1)%nat)))
  /\ getFormattedUnit "digital" "short" (Num 1536)
     = Return (formatValue "digital-kilobyte-short" (Num (3 # 2)))
  /\ getFormattedUnit "digital" "short" (Num 1500)
     = Return (formatValue "digital-kilobyte-short" (binary64 (146 # 100)))
  /\ getFormattedUnit "digital" "short" (Num 1945)
     = Return (formatValue "digital-kilobyte-short" (binary64 (19 # 10)))
  /\ getFormattedUnit "duration" "narrow" (Num 3618)
     = Return (formatValue "duration-hour-narrow" (Num 1)).
Proof.
  split.
  - intros type style units g v D G I.
    set (scale := Spec.scale units (UnitGroup.rounding g) v).
    assert (B : (scale < List.length units)%nat).
    { apply scale_in_range.
      destruct (unitFormat_tables _ _ _ D G) as ([ -> | -> ] & D' & _);
        cbn in D'; injection D' as <-; discriminate. }
    destruct (nth_error units scale) as [ u | ] eqn:N.
    2:{ apply nth_error_None in N. lia. }
    exists scale, u. split; [ exact N | split ].
    + unfold getFormattedUnit. simpl isNaN_parseInt. cbv iota.
      rewrite D. unfold member. rewrite G. unfold bind.
      rewrite I. simpl negb. cbv iota.
      rewrite scale_loop_spec. fold scale. rewrite N.
      rewrite (UnitFormat_of_table _ _ _ _ _ _ D G I N).
      reflexivity.
    + apply scale_first_below.
  - repeat split; vm_compute; reflexivity.
Qed.

Lemma getFormattedUnit_scale_witness :
  exists (scale : nat) (u : UnitDatum.t) (units : list UnitDatum.t),
    get "digital" unitFormatData = Some units
    /\ nth_error units scale = Some u
    /\ getFormattedUnit "digital" "short" (Num 1536)
       = Return
           (formatValue ("digital" ++ "-" ++ UnitDatum.name u ++ "-" ++ "short")
              (double_div
                 (Math_round_number
                    (double_mul
                       (double_div (Num 1536) (inject_Z (UnitDatum.value u)))
                       100))
                 100)).
Proof.
  destruct (proj1 getFormattedUnit_scale "digital" "short" _ _ 1536%Q
              eq_refl eq_refl eq_refl) as (scale & u & N & E & _).
  exists scale, u. eexists. split; [ reflexivity | split; [ exact N | exact E ] ].
Defined.

(** C9, as the code has it: for a magnitude whose [parseInt] is [NaN]
    (NaN and the infinities), [getFormattedUnit] throws nothing and returns
    a promise resolved with [undefined], whatever the type and the style,
    which are not looked at. *)
Theorem getFormattedUnit_not_a_number (type style : string) (v : number) :
  isNaN_parseInt v = true ->
  getFormattedUnit type style v = Return resolve_undefined.
Proof.
  intros H. unfold getFormattedUnit. rewrite H. reflexivity.
Qed.

Lemma getFormattedUnit_not_a_number_witness :
  isNaN_parseInt PosInfinity = true
  /\ getFormattedUnit "digital" "short" PosInfinity = Return resolve_undefined.
Proof.
  split; [ reflexivity | ].
  apply (getFormattedUnit_not_a_number "digital" "short" PosInfinity).
  reflexivity.
Defined.

(** C9, as the specification has it, fails: on [NaN] nothing is thrown. *)
Lemma getFormattedUnit_NaN_no_error :
  ~ exists e : exn, getFormattedUnit "digital" "short" NaN = Throw e.
Proof.
  intros [e H]. vm_compute in H. discriminate.
Qed.

Lemma getBestMatchUnit_thresholds_witness :
  getBestMatchUnit (computeTimeUnits 7200000) = "hour".
Proof.
  apply (proj1 (proj2 (proj2
           (proj1 getBestMatchUnit_thresholds (computeTimeUnits 7200000)))));
    [ vm_compute; discriminate | vm_compute; reflexivity ].
Defined.

(** ** DurationSplitter *)

Lemma order_entry (i : nat) :
  (i < 4)%nat ->
  exists key el,
    nth_error durationFormatOrder i = Some key
    /\ get key durationFormatElements = Some el
    /\ DurationElement.value el = unit_value i
    /\ 0 < unit_value i.
Proof.
  intros L.
  do 4 (destruct i as [ | i ];
        [ eexists; eexists; repeat split; reflexivity | ]).
  lia.
Qed.

Lemma unit_value_divide (i j : nat) :
  (i <= j)%nat -> (j < 4)%nat -> (unit_value j | unit_value i).
Proof.
  intros Lij Lj.
  do 4 (destruct j as [ | j ]; [
    do 4 (destruct i as [ | i ];
          [ first [ lia | apply Z.mod_divide; [ discriminate | reflexivity ] ] | ]);
    lia | ]).
  lia.
Qed.

Lemma Math_floor_div (z V : Z) (input : Q) :
  (input == inject_Z z)%Q ->
  Math_floor (input / inject_Z V) = z / V.
Proof.
  intros E. unfold Math_floor. rewrite Zdiv_Qdiv.
  apply Qfloor_comp. rewrite E. reflexivity.
Qed.

Lemma Math_round_div_exact (z V : Z) (input : Q) :
  (input == inject_Z z)%Q -> 0 < V -> (V | z) ->
  Math_round (input / inject_Z V) = z / V.
Proof.
  intros E P [q ->].
  rewrite Z.div_mul by lia.
  rewrite <- (Math_round_Z q).
  apply Math_round_comp. rewrite E, inject_Z_mult.
  field. intros H. apply (inject_Z_injective V 0) in H. lia.
Qed.

Lemma split_loop_comp (remaining i minIdx : nat) (x y : Q) (acc : breakdown) :
  (x == y)%Q ->
  split_loop remaining i minIdx x acc = split_loop remaining i minIdx y acc.
Proof.
  revert i x y acc.
  induction remaining as [ | remaining IH ]; intros i x y acc E;
    [ reflexivity | ].
  cbn [split_loop].
  destruct (nth_error durationFormatOrder i) as [ key | ]; [ | reflexivity ].
  destruct (member key durationFormatElements) as [ el | e ];
    [ | reflexivity ].
  cbn [bind].
  assert (F : Math_floor (x / inject_Z (DurationElement.value el))
              = Math_floor (y / inject_Z (DurationElement.value el))).
  { unfold Math_floor. apply Qfloor_comp. rewrite E. reflexivity. }
  assert (R : Math_round (x / inject_Z (DurationElement.value el))
              = Math_round (y / inject_Z (DurationElement.value el))).
  { apply Math_round_comp. rewrite E. reflexivity. }
  rewrite F, R. apply IH. rewrite E. reflexivity.
Qed.

Lemma chain_mono (bound bound' : Z) (i : nat) (units : breakdown) :
  bound <= bound' -> chain bound i units -> chain bound' i units.
Proof.
  destruct units as [ | [key m] units ]; simpl; [ trivial | ].
  intros L (N & P & B & C). repeat split; auto. lia.
Qed.

(** One step of the loop on an integer input. *)
Lemma split_loop_step (remaining i minIdx : nat) (z : Z) (input : Q)
  (acc : breakdown) :
  (i < 4)%nat -> (input == inject_Z z)%Q ->
  (i = minIdx -> (unit_value i | z)) ->
  exists key,
    nth_error durationFormatOrder i = Some key
    /\ get key durationFormatElements
       = Some {| DurationElement.value := unit_value i;
                 DurationElement.token :=
                   match get key durationFormatElements with
                   | Some el => DurationElement.token el
                   | None => EmptyString
                   end |}
    /\ split_loop (S remaining) i minIdx input acc
       = split_loop remaining (S i) minIdx
           (inject_Z (z - z / unit_value i * unit_value i))
           (acc ++ [(key, z / unit_value i)])%list.
Proof.
  intros L E D.
  destruct (order_entry i L) as (key & el & N & G & V & P).
  exists key. split; [ exact N | split ].
  - rewrite G. destruct el as [value token]. simpl in V. now subst value.
  - cbn [split_loop]. rewrite N. unfold member. rewrite G. cbn [bind].
    rewrite V.
    assert (M : (if (i =? minIdx)%nat
                 then Math_round (input / inject_Z (unit_value i))
                 else Math_floor (input / inject_Z (unit_value i)))
                = z / unit_value i).
    { destruct (Nat.eqb_spec i minIdx) as [ Ei | _ ].
      - apply Math_round_div_exact; auto.
      - now apply Math_floor_div. }
    rewrite M. apply split_loop_comp.
    rewrite E. unfold Qminus.
    rewrite <- inject_Z_mult, <- inject_Z_opp, <- inject_Z_plus.
    reflexivity.
Qed.

(** The loop on an integer input that is a multiple of the smallest unit:
    run at least once up to the smallest unit, it returns, it appends one
    entry per index, the entries are worth the input, and they form a
    [chain]. *)
Lemma split_loop_int (remaining : nat) :
  forall (i minIdx : nat) (z : Z) (input : Q) (acc : breakdown),
    (i + remaining = minIdx)%nat -> (minIdx < 4)%nat ->
    0 <= z -> (unit_value minIdx | z) -> (input == inject_Z z)%Q ->
    exists rest,
      split_loop (S remaining) i minIdx input acc = Return (acc ++ rest)%list
      /\ List.length rest = S remaining
      /\ breakdown_total rest = z
      /\ chain z i rest.
Proof.
  induction remaining as [ | remaining IH ];
    intros i minIdx z input acc L L4 P D E.
  - rewrite Nat.add_0_r in L. subst minIdx.
    destruct (split_loop_step 0 i i z input acc L4 E (fun _ => D))
      as (key & N & G & St).
    destruct (order_entry i L4) as (_ & _ & _ & _ & _ & V).
    exists [(key, z / unit_value i)].
    rewrite St. cbn [split_loop]. split; [ reflexivity | split; [ reflexivity | ] ].
    assert (Q : z / unit_value i * unit_value i = z).
    { destruct D as [q ->]. rewrite Z.div_mul by lia. reflexivity. }
    split.
    + cbn [breakdown_total]. rewrite G. cbn. lia.
    + cbn [chain]. repeat split; auto; try lia;
        try (apply Z.div_pos; lia).
  - assert (Li : (i < 4)%nat) by lia.
    assert (Ni : i = minIdx -> (unit_value i | z)) by (intros; lia).
    destruct (split_loop_step (S remaining) i minIdx z input acc Li E Ni)
      as (key & N & G & St).
    destruct (order_entry i Li) as (_ & _ & _ & _ & _ & V).
    assert (M : z - z / unit_value i * unit_value i = z mod unit_value i).
    { rewrite Z.mod_eq by lia. lia. }
    assert (B : 0 <= z mod unit_value i < unit_value i)
      by (apply Z.mod_pos_bound; lia).
    destruct (IH (S i) minIdx (z mod unit_value i)
                (inject_Z (z - z / unit_value i * unit_value i))
                (acc ++ [(key, z / unit_value i)])%list)
      as (rest & R & Len & T & C); try lia.
    + rewrite Z.mod_eq by lia. apply Z.divide_sub_r; [ exact D | ].
      apply Z.divide_mul_l. apply unit_value_divide; lia.
    + rewrite M. reflexivity.
    + exists ((key, z / unit_value i) :: rest).
      rewrite St, R, <- app_assoc. split; [ reflexivity | ].
      split; [ simpl; lia | ].
      split.
      * cbn [breakdown_total]. rewrite G, T. cbn.
        rewrite Z.mod_eq by lia. lia.
      * cbn [chain]. repeat split; auto.
        -- apply Z.div_pos; lia.
        -- rewrite Z.mul_comm. apply Z.mul_div_le. lia.
        -- apply chain_mono with (bound := z mod unit_value i); [ lia | exact C ].
Qed.

Lemma skipn_nth_error {A : Type} (l : list A) (i : nat) (a : A) :
  nth_error l i = Some a -> skipn i l = a :: skipn (S i) l.
Proof.
  revert i. induction l as [ | b l IH ]; intros [ | i ] N; try discriminate.
  - now injection N as ->.
  - simpl in N. apply IH in N. exact N.
Qed.

Lemma chain_keys (bound : Z) (i : nat) (units : breakdown) :
  chain bound i units ->
  map fst units = firstn (List.length units) (skipn i durationFormatOrder).
Proof.
  revert bound i. induction units as [ | [key m] units IH ]; intros bound i;
    [ reflexivity | ].
  cbn [chain]. intros (N & _ & _ & C).
  rewrite (skipn_nth_error _ _ _ N). simpl. f_equal. now apply IH in C.
Qed.

Lemma order_injective (i n : nat) (key : string) :
  nth_error durationFormatOrder i = Some key ->
  nth_error durationFormatOrder n = Some key -> i = n.
Proof.
  intros Hi Hn.
  assert (ND : NoDup durationFormatOrder).
  { unfold durationFormatOrder.
    repeat constructor; simpl; intuition discriminate. }
  apply (proj1 (NoDup_nth_error durationFormatOrder) ND).
  - apply nth_error_Some. congruence.
  - congruence.
Qed.

(** Reading a unit out of a [chain]: its magnitude is not negative, and
    below the first unit it is worth less than one unit of its
    predecessor. *)
Lemma chain_get (units : breakdown) :
  forall (bound : Z) (i n : nat) (key : string),
    chain bound i units ->
    (i <= n < i + List.length units)%nat ->
    nth_error durationFormatOrder n = Some key ->
    exists m,
      get key units = Some m /\ 0 <= m
      /\ m * unit_value n
         <= (if (n =? i)%nat then bound else unit_value (n - 1) - 1).
Proof.
  induction units as [ | [k0 m0] units IH ]; intros bound i n key C L N.
  - simpl in L. lia.
  - cbn [chain] in C. destruct C as (N0 & P0 & B0 & C).
    cbn [get].
    destruct (Nat.eqb_spec n i) as [ -> | NE ].
    + assert (k0 = key) by congruence. subst k0.
      rewrite String.eqb_refl. exists m0. auto.
    + destruct (String.eqb_spec k0 key) as [ -> | _ ].
      * exfalso. apply NE. symmetry. eapply order_injective; eauto.
      * destruct (IH _ (S i) n key C) as (m & G & P & B); auto.
        { simpl in L. lia. }
        exists m. split; [ exact G | split; [ exact P | ] ].
        destruct (Nat.eqb_spec n (S i)) as [ -> | _ ]; [ | exact B ].
        replace (S i - 1)%nat with i by lia. exact B.
Qed.

Lemma getDurationUnitIdx_known (name : string) (i defaultValue : nat) :
  nth_error durationFormatOrder i = Some name ->
  getDurationUnitIdx name defaultValue = Return i.
Proof.
  intros N.
  do 4 (destruct i as [ | i ]; [ injection N as <-; reflexivity | ]).
  destruct i; discriminate.
Qed.

Lemma DurationFormat_known (maxUnit minUnit : string) (i j : nat) :
  nth_error durationFormatOrder i = Some maxUnit ->
  nth_error durationFormatOrder j = Some minUnit ->
  DurationFormat {| DurationOptions.maxUnit := Some maxUnit;
                    DurationOptions.minUnit := Some minUnit |}
  = Return {| resolvedOptions :=
                {| ResolvedOptions.maxUnit := maxUnit;
                   ResolvedOptions.minUnit := minUnit |};
              maxUnitIdx := i;
              minUnitIdx := j |}.
Proof.
  intros Ni Nj. unfold DurationFormat. cbn [DurationOptions.maxUnit
    DurationOptions.minUnit ResolvedOptions.maxUnit ResolvedOptions.minUnit].
  rewrite (getDurationUnitIdx_known _ _ _ Ni). cbn [bind].
  rewrite (getDurationUnitIdx_known _ _ _ Nj). reflexivity.
Qed.

Lemma Math_round_near (x : Q) :
  (Qabs (inject_Z (Math_round x) - x) <= 1 # 2)%Q.
Proof.
  unfold Math_round.
  pose proof (Qfloor_le (x + (1 # 2))) as Lo.
  pose proof (Qlt_floor (x + (1 # 2))) as Hi.
  rewrite inject_Z_plus in Hi. change (inject_Z 1) with 1%Q in Hi.
  set (k := inject_Z (Qfloor (x + (1 # 2)))) in *.
  apply Qabs_Qle_condition. split; lra.
Qed.

Lemma Qabs_Qabs_near (a b : Q) : (Qabs (Qabs a - Qabs b) <= Qabs (a - b))%Q.
Proof.
  apply Qabs_Qle_condition. split.
  - pose proof (Qabs_triangle_reverse b a) as T.
    rewrite (Qabs_Qminus b a) in T. lra.
  - apply Qabs_triangle_reverse.
Qed.

(** [splitIntoTimeUnits] on a multiple of the smallest requested unit. *)
Lemma splitIntoTimeUnits_int (v : Q) (z : Z) (i j : nat) :
  (i <= j)%nat -> (j < 4)%nat -> (unit_value j | z) ->
  (v == inject_Z z)%Q ->
  exists units,
    splitIntoTimeUnits v i j = Return units
    /\ List.length units = (S j - i)%nat
    /\ breakdown_total units = Z.abs z
    /\ chain (Z.abs z) i units.
Proof.
  intros L L4 D E. unfold splitIntoTimeUnits.
  replace (S j - i)%nat with (S (j - i)) by lia.
  destruct (split_loop_int (j - i) i j (Z.abs z) (Qabs v) [])
    as (rest & R & Len & T & C); try lia.
  - now apply Z.divide_abs_r.
  - rewrite E. reflexivity.
  - exists rest. rewrite R. auto.
Qed.

(** C1: for a valid pair of units, [format] rounds the whole input once to
    a multiple of the smallest unit's base value and then splits it; the
    magnitudes times the base values add up to that rounded input in
    absolute value, a multiple of the base value nearest to |d|, and the
    breakdown has the units from maxUnit to minUnit in order. *)
Theorem format_duration_sum (d : Q) (maxUnit minUnit : string) (i j : nat) :
  nth_error durationFormatOrder i = Some maxUnit ->
  nth_error durationFormatOrder j = Some minUnit ->
  (i <= j)%nat ->
  exists (f : durationFormatter) (minEl : DurationElement.t) (input : Q)
         (units : breakdown),
    DurationFormat {| DurationOptions.maxUnit := Some maxUnit;
                      DurationOptions.minUnit := Some minUnit |} = Return f
    /\ get minUnit durationFormatElements = Some minEl
    /\ format_duration f d = Return (input, units)
    /\ input = (inject_Z (Math_round (d / inject_Z (DurationElement.value minEl)))
                * inject_Z (DurationElement.value minEl))%Q
    /\ splitIntoTimeUnits input i j = Return units
    /\ breakdown_total units
       = Z.abs (Math_round (d / inject_Z (DurationElement.value minEl)))
         * DurationElement.value minEl
    /\ (Qabs (inject_Z (breakdown_total units) - Qabs d)
        <= inject_Z (DurationElement.value minEl) / 2)%Q
    /\ map fst units = firstn (S j - i) (skipn i durationFormatOrder).
Proof.
  intros Ni Nj L.
  assert (L4 : (j < 4)%nat).
  { apply (nth_error_Some durationFormatOrder j). congruence. }
  destruct (order_entry j L4) as (key & minEl & N & G & V & P).
  assert (key = minUnit) by congruence. subst key.
  set (k := Math_round (d / inject_Z (DurationElement.value minEl))).
  set (input := (inject_Z k * inject_Z (DurationElement.value minEl))%Q).
  destruct (splitIntoTimeUnits_int input (k * unit_value j) i j)
    as (units & S & Len & T & C); auto.
  { apply Z.divide_factor_r. }
  { unfold input. rewrite V, inject_Z_mult. reflexivity. }
  eexists. exists minEl, input, units.
  split; [ apply (DurationFormat_known _ _ _ _ Ni Nj) | ].
  split; [ exact G | ].
  split.
  { unfold format_duration. cbn [resolvedOptions ResolvedOptions.minUnit
      maxUnitIdx minUnitIdx]. unfold member. rewrite G. cbn [bind].
    fold k. fold input. rewrite S. reflexivity. }
  split; [ reflexivity | ].
  split; [ exact S | ].
  assert (Tot : breakdown_total units
                = Z.abs k * DurationElement.value minEl).
  { rewrite T, Z.abs_mul, V, (Z.abs_eq (unit_value j)) by lia. reflexivity. }
  split; [ exact Tot | ].
  split.
  - rewrite Tot, V.
    set (W := inject_Z (unit_value j)).
    assert (PW : (0 < W)%Q).
    { unfold W. replace 0%Q with (inject_Z 0) by reflexivity.
      rewrite <- Zlt_Qlt. exact P. }
    assert (Ed : (d == d / W * W)%Q).
    { field. intros H. rewrite H in PW. discriminate. }
    assert (E1 : (inject_Z (Z.abs k * unit_value j) - Qabs d
                  == (Qabs (inject_Z k) - Qabs (d / W)) * W)%Q).
    { rewrite Ed at 1. rewrite Qabs_Qmult, (Qabs_pos W) by lra.
      rewrite inject_Z_mult. fold W.
      change (inject_Z (Z.abs k)) with (Qabs (inject_Z k)). ring. }
    rewrite E1, Qabs_Qmult, (Qabs_pos W) by lra.
    setoid_replace (W / 2)%Q with ((1 # 2) * W)%Q by field.
    apply Qmult_le_compat_r; [ | lra ].
    apply Qle_trans with (Qabs (inject_Z k - d / W)).
    + apply Qabs_Qabs_near.
    + unfold k, W. rewrite V. apply Math_round_near.
  - rewrite (chain_keys _ _ _ C), Len. reflexivity.
Qed.

Lemma format_duration_sum_witness :
  exists (f : durationFormatter) (minEl : DurationElement.t) (input : Q)
         (units : breakdown),
    DurationFormat {| DurationOptions.maxUnit := Some "hour";
                      DurationOptions.minUnit := Some "second" |} = Return f
    /\ get "second" durationFormatElements = Some minEl
    /\ format_duration f (-7954321) = Return (input, units)
    /\ input = (inject_Z (Math_round
                            (-7954321 / inject_Z (DurationElement.value minEl)))
                * inject_Z (DurationElement.value minEl))%Q
    /\ splitIntoTimeUnits input 0 2 = Return units
    /\ breakdown_total units
       = Z.abs (Math_round (-7954321 / inject_Z (DurationElement.value minEl)))
         * DurationElement.value minEl
    /\ (Qabs (inject_Z (breakdown_total units) - Qabs (-7954321))
        <= inject_Z (DurationElement.value minEl) / 2)%Q
    /\ map fst units = firstn (3 - 0) (skipn 0 durationFormatOrder).
Proof.
  apply (format_duration_sum (-7954321) "hour" "second" 0 2);
    [ reflexivity | reflexivity | lia ].
Defined.

(** C10: on an input that is a multiple of minUnit's base value, every
    unit strictly below maxUnit has a magnitude that is not negative and is
    below the ratio of the next larger unit's base value to its own; the
    ratios are 60, 60 and 100. *)
Theorem splitIntoTimeUnits_bounds (v : Q) (k : Z) (i j : nat) :
  (i <= j)%nat -> (j < 4)%nat ->
  (v == inject_Z (k * unit_value j))%Q ->
  exists units : breakdown,
    splitIntoTimeUnits v i j = Return units
    /\ (forall (n : nat) (key : string),
           (i < n <= j)%nat ->
           nth_error durationFormatOrder n = Some key ->
           exists m,
             get key units = Some m
             /\ 0 <= m < unit_value (n - 1) / unit_value n)
    /\ unit_value 0 / unit_value 1 = 60
    /\ unit_value 1 / unit_value 2 = 60
    /\ unit_value 2 / unit_value 3 = 100.
Proof.
  intros L L4 E.
  destruct (splitIntoTimeUnits_int v (k * unit_value j) i j L L4)
    as (units & S & Len & _ & C); auto.
  { apply Z.divide_factor_r. }
  exists units. split; [ exact S | ].
  split; [ | repeat split; reflexivity ].
  intros n key Ln N.
  destruct (chain_get units _ i n key C) as (m & G & P & B); auto.
  { lia. }
  exists m. split; [ exact G | split; [ exact P | ] ].
  destruct (Nat.eqb_spec n i) as [ -> | _ ]; [ lia | ].
  assert (Ln4 : (n < 4)%nat) by lia.
  destruct (order_entry n Ln4) as (_ & _ & _ & _ & _ & Vn).
  destruct (unit_value_divide (n - 1) n) as [q Eq]; try lia.
  rewrite Eq, Z.div_mul by lia.
  rewrite Eq in B. nia.
Qed.

Lemma splitIntoTimeUnits_bounds_witness :
  exists units : breakdown,
    splitIntoTimeUnits (-7954320) 0 3 = Return units
    /\ (forall (n : nat) (key : string),
           (0 < n <= 3)%nat ->
           nth_error durationFormatOrder n = Some key ->
           exists m,
             get key units = Some m
             /\ 0 <= m < unit_value (n - 1) / unit_value n)
    /\ unit_value 0 / unit_value 1 = 60
    /\ unit_value 1 / unit_value 2 = 60
    /\ unit_value 2 / unit_value 3 = 100.
Proof.
  apply (splitIntoTimeUnits_bounds (-7954320) (-795432) 0 3);
    [ lia | lia | reflexivity ].
Defined.

(** C4, as the code has it: with the units reversed nothing is thrown;
    the loop does not run, [splitIntoTimeUnits] returns the empty
    breakdown, and so does [format] after the formatter was built. *)
Theorem splitIntoTimeUnits_reversed (d : Q) (maxUnit minUnit : string)
  (i j : nat) :
  nth_error durationFormatOrder i = Some maxUnit ->
  nth_error durationFormatOrder j = Some minUnit ->
  (j < i)%nat ->
  splitIntoTimeUnits d i j = Return []
  /\ exists (f : durationFormatter) (input : Q),
      DurationFormat {| DurationOptions.maxUnit := Some maxUnit;
                        DurationOptions.minUnit := Some minUnit |} = Return f
      /\ format_duration f d = Return (input, []).
Proof.
  intros Ni Nj L.
  assert (R : forall x, splitIntoTimeUnits x i j = Return []).
  { intros x. unfold splitIntoTimeUnits.
    replace (S j - i)%nat with O by lia. reflexivity. }
  split; [ apply R | ].
  assert (L4 : (j < 4)%nat).
  { apply (nth_error_Some durationFormatOrder j). congruence. }
  destruct (order_entry j L4) as (key & minEl & N & G & _ & _).
  assert (key = minUnit) by congruence. subst key.
  eexists. eexists.
  split; [ apply (DurationFormat_known _ _ _ _ Ni Nj) | ].
  unfold format_duration. cbn [resolvedOptions ResolvedOptions.minUnit
    maxUnitIdx minUnitIdx]. unfold member. rewrite G. cbn [bind].
  rewrite R. reflexivity.
Qed.

Lemma splitIntoTimeUnits_reversed_witness :
  splitIntoTimeUnits 5000 2 0 = Return []
  /\ exists (f : durationFormatter) (input : Q),
      DurationFormat {| DurationOptions.maxUnit := Some "second";
                        DurationOptions.minUnit := Some "hour" |} = Return f
      /\ format_duration f 5000 = Return (input, []).
Proof.
  apply (splitIntoTimeUnits_reversed 5000 "second" "hour" 2 0);
    [ reflexivity | reflexivity | lia ].
Defined.

(** C4, as the specification has it, fails: second above hour throws
    nothing, neither when the formatter is built nor when it formats. *)
Lemma reversed_units_no_error :
  ~ exists e : exn,
      (let* f := DurationFormat
                   {| DurationOptions.maxUnit := Some "second";
                      DurationOptions.minUnit := Some "hour" |} in
       format_duration f 5000) = Throw e.
Proof.
  intros [e H]. vm_compute in H. discriminate.
Qed.

(** ** PatternTrimmer *)

Lemma substring_0 (s : string) : forall n, substring n 0 s = EmptyString.
Proof.
  induction s as [ | c s IH ]; intros [ | n ]; simpl; auto.
Qed.

Lemma length_substring (s : string) :
  forall n m, length (substring n m s) = Nat.min m (length s - n).
Proof.
  induction s as [ | c s IH ]; intros [ | n ] [ | m ]; simpl; auto;
    rewrite IH; simpl; try rewrite Nat.sub_0_r; reflexivity.
Qed.

Lemma substring_substring (s : string) :
  forall n m a b,
    (a + b <= m)%nat ->
    substring a b (substring n m s) = substring (n + a) b s.
Proof.
  induction s as [ | c s IH ]; intros n m a b L.
  - destruct n, m, a, b; reflexivity.
  - destruct m as [ | m ].
    + assert (a = O) by lia. assert (b = O) by lia. subst.
      now rewrite !substring_0.
    + destruct n as [ | n ]; [ | simpl; apply IH; lia ].
      simpl. destruct a as [ | a ].
      * destruct b as [ | b ]; [ reflexivity | ].
        f_equal. rewrite (IH 0%nat m 0%nat b) by lia. reflexivity.
      * rewrite (IH 0%nat m a b) by lia. reflexivity.
Qed.

(** [indexOf] finds the first occurrence, and [-1] when there is none. *)
Lemma indexOf_first_occurrence (s t : string) (p : nat) :
  t <> EmptyString ->
  first_occurrence t s p -> indexOf s t = Z.of_nat p.
Proof.
  intros NE [O F]. unfold indexOf.
  destruct (index 0 t s) as [ m | ] eqn:E.
  - f_equal.
    destruct (Nat.lt_trichotomy m p) as [ L | [ -> | L ] ]; [ | reflexivity | ].
    + exfalso. apply (F m L). exact (index_correct1 _ _ _ _ E).
    + exfalso. apply (index_correct2 _ _ _ _ E p); [ lia | exact L | exact O ].
  - exfalso. apply (index_correct3 0 p t s E NE); [ lia | exact O ].
Qed.

Lemma indexOf_absent (s t : string) :
  t <> EmptyString ->
  (forall p, ~ occurs_at t s p) <-> indexOf s t = -1.
Proof.
  intros NE. unfold indexOf. split.
  - intros A. destruct (index 0 t s) as [ m | ] eqn:E; [ | reflexivity ].
    exfalso. apply (A m). exact (index_correct1 _ _ _ _ E).
  - destruct (index 0 t s) as [ m | ] eqn:E; [ lia | ].
    intros _ p. apply (index_correct3 0 p t s E NE). lia.
Qed.

Lemma occurs_at_bound (s t : string) (p : nat) :
  t <> EmptyString -> occurs_at t s p -> (p + length t <= length s)%nat.
Proof.
  intros NE O. unfold occurs_at in O.
  apply (f_equal length) in O. rewrite length_substring in O.
  assert (0 < length t)%nat by (destruct t; [ contradiction | simpl; lia ]).
  lia.
Qed.

Lemma token_length (key : string) (el : DurationElement.t) :
  get key durationFormatElements = Some el ->
  length (DurationElement.token el) = 2%nat.
Proof.
  unfold durationFormatElements. cbn [get].
  repeat match goal with
         | |- context [String.eqb ?a key] => destruct (String.eqb a key)
         end; intros [= <-]; reflexivity.
Qed.

(** C8, as the code has it: for known units [trimDurationPattern] never
    throws; when both tokens occur in the pattern and maxUnit's token first
    occurs no later than minUnit's, it returns the contiguous part of the
    pattern from the first occurrence of maxUnit's token to the last
    character of the first occurrence of minUnit's token. *)
Theorem trimDurationPattern_substring (pattern maxUnit minUnit : string)
  (maxEl minEl : DurationElement.t) :
  get maxUnit durationFormatElements = Some maxEl ->
  get minUnit durationFormatElements = Some minEl ->
  (exists s, trimDurationPattern pattern maxUnit minUnit = Return s)
  /\ forall i j : nat,
      first_occurrence (DurationElement.token maxEl) pattern i ->
      first_occurrence (DurationElement.token minEl) pattern j ->
      (i <= j)%nat ->
      let s :=
        substring i (j + length (DurationElement.token minEl) - i) pattern in
      trimDurationPattern pattern maxUnit minUnit = Return s
      /\ length s = (j + length (DurationElement.token minEl) - i)%nat
      /\ occurs_at (DurationElement.token maxEl) s 0
      /\ occurs_at (DurationElement.token minEl) s (j - i).
Proof.
  intros Gmax Gmin.
  assert (T : trimDurationPattern pattern maxUnit minUnit
              = Return
                  (js_substring pattern
                     (indexOf pattern (DurationElement.token maxEl))
                     (indexOf pattern (DurationElement.token minEl)
                      + Z.of_nat (length (DurationElement.token minEl))))).
  { unfold trimDurationPattern, member. rewrite Gmax, Gmin. reflexivity. }
  split; [ eexists; exact T | ].
  intros i j Fi Fj L s.
  pose proof (token_length _ _ Gmax) as Lmax.
  pose proof (token_length _ _ Gmin) as Lmin.
  assert (NEmax : DurationElement.token maxEl <> EmptyString).
  { intros E. rewrite E in Lmax. discriminate. }
  assert (NEmin : DurationElement.token minEl <> EmptyString).
  { intros E. rewrite E in Lmin. discriminate. }
  pose proof (occurs_at_bound _ _ _ NEmin (proj1 Fj)) as Bj.
  assert (Es : js_substring pattern
                 (indexOf pattern (DurationElement.token maxEl))
                 (indexOf pattern (DurationElement.token minEl)
                  + Z.of_nat (length (DurationElement.token minEl))) = s).
  { rewrite (indexOf_first_occurrence _ _ _ NEmax Fi),
      (indexOf_first_occurrence _ _ _ NEmin Fj).
    unfold js_substring, clamp, s.
    rewrite <- Nat2Z.inj_add.
    rewrite !Z.max_l, !Z.min_l, !Nat2Z.id by lia.
    rewrite Nat.min_l, Nat.max_r by lia. reflexivity. }
  split; [ rewrite T, Es; reflexivity | ].
  split; [ unfold s; rewrite length_substring; lia | ].
  split.
  - unfold occurs_at, s. rewrite substring_substring by lia.
    rewrite Nat.add_0_r. exact (proj1 Fi).
  - unfold occurs_at, s. rewrite substring_substring by lia.
    replace (i + (j - i))%nat with j by lia. exact (proj1 Fj).
Qed.

Lemma trimDurationPattern_substring_witness :
  trimDurationPattern "hh:mm:ss.SS" "minute" "second" = Return "mm:ss".
Proof.
  destruct (trimDurationPattern_substring "hh:mm:ss.SS" "minute" "second"
              _ _ eq_refl eq_refl) as [_ H].
  apply (H 3%nat 6%nat); [ | | lia ].
  - split; [ reflexivity | ].
    intros q Lq. do 3 (destruct q as [ | q ]; [ discriminate | ]). lia.
  - split; [ reflexivity | ].
    intros q Lq. do 6 (destruct q as [ | q ]; [ discriminate | ]). lia.
Defined.

(** C8, as the specification has it, fails: a pattern without the hour
    token is trimmed without an error; and where the minute token comes
    after the second token, both present, the result does not start with
    the minute token. *)
Lemma trimDurationPattern_no_error :
  (forall p, ~ occurs_at "hh" "mm:ss" p)
  /\ trimDurationPattern "mm:ss" "hour" "second" = Return "mm:ss"
  /\ first_occurrence "mm" "ss:mm" 3
  /\ first_occurrence "ss" "ss:mm" 0
  /\ trimDurationPattern "ss:mm" "minute" "second" = Return ":".
Proof.
  split; [ | split; [ reflexivity | split; [ | split; [ | reflexivity ] ] ] ].
  - apply indexOf_absent; [ discriminate | reflexivity ].
  - split; [ reflexivity | ].
    intros q Lq. do 3 (destruct q as [ | q ]; [ discriminate | ]). lia.
  - split; [ reflexivity | ]. intros q Lq. lia.
Qed.

(** * Further properties of the code *)

(** ** getDurationUnitIdx and DurationFormat *)

Lemma array_indexOf_Some (name : string) (a : list string) (i : nat) :
  array_indexOf name a = Some i -> nth_error a i = Some name.
Proof.
  revert i. induction a as [ | x a IH ]; intros i; simpl; [ discriminate | ].
  destruct (String.eqb_spec x name) as [ -> | _ ].
  - intros [= <-]. reflexivity.
  - destruct (array_indexOf name a) as [ k | ]; simpl; [ | discriminate ].
    intros [= <-]. simpl. now apply IH.
Qed.

Lemma array_indexOf_None (name : string) (a : list string) :
  array_indexOf name a = None -> ~ In name a.
Proof.
  induction a as [ | x a IH ]; simpl; [ tauto | ].
  destruct (String.eqb_spec x name) as [ -> | N ]; [ discriminate | ].
  destruct (array_indexOf name a); simpl; [ discriminate | ].
  intros _ [ E | I ]; [ contradiction | now apply IH ].
Qed.

Lemma getDurationUnitIdx_result (name : string) (defaultValue : nat) :
  match getDurationUnitIdx name defaultValue with
  | Return i =>
      (name = EmptyString /\ i = defaultValue)
      \/ (name <> EmptyString /\ nth_error durationFormatOrder i = Some name)
  | Throw e =>
      name <> EmptyString /\ ~ In name durationFormatOrder
      /\ e = Error ("Unknown unit type: " ++ name)
  end.
Proof.
  unfold getDurationUnitIdx.
  destruct (String.eqb_spec name EmptyString) as [ -> | NE ]; [ now left | ].
  destruct (array_indexOf name durationFormatOrder) as [ i | ] eqn:E.
  - right. split; [ exact NE | now apply array_indexOf_Some ].
  - split; [ exact NE | split; [ now apply array_indexOf_None | reflexivity ] ].
Qed.

(** X1: [getDurationUnitIdx] returns the default for the empty name, the
    position in [durationFormatOrder] for a name of the list, and throws
    the error "Unknown unit type: name" for every other name. *)
Theorem getDurationUnitIdx_cases (name : string) (defaultValue : nat) :
  match getDurationUnitIdx name defaultValue with
  | Return i =>
      (name = EmptyString /\ i = defaultValue)
      \/ (name <> EmptyString /\ nth_error durationFormatOrder i = Some name)
  | Throw e =>
      name <> EmptyString /\ ~ In name durationFormatOrder
      /\ e = Error ("Unknown unit type: " ++ name)
  end
  /\ (forall i, nth_error durationFormatOrder i = Some name ->
                getDurationUnitIdx name defaultValue = Return i)
  /\ getDurationUnitIdx EmptyString defaultValue = Return defaultValue.
Proof.
  split; [ apply getDurationUnitIdx_result | ].
  split; [ | reflexivity ].
  intros i N. now apply getDurationUnitIdx_known.
Qed.

(** X3: An empty minUnit passes the construction of the formatter, where it
    takes the last index, and then every call of [format] throws a
    [TypeError], as no element of the table has the empty name. *)
Theorem DurationFormat_empty_minUnit (maxUnit : string) (i : nat) (d : Q) :
  nth_error durationFormatOrder i = Some maxUnit ->
  exists f,
    DurationFormat {| DurationOptions.maxUnit := Some maxUnit;
                      DurationOptions.minUnit := Some EmptyString |}
    = Return f
    /\ maxUnitIdx f = i /\ minUnitIdx f = 3%nat
    /\ format_duration f d = Throw TypeError.
Proof.
  intros N. unfold DurationFormat.
  cbn [DurationOptions.maxUnit DurationOptions.minUnit
       ResolvedOptions.maxUnit ResolvedOptions.minUnit].
  rewrite (getDurationUnitIdx_known _ _ _ N). cbn [bind].
  eexists. split; [ reflexivity | ]. repeat split.
Qed.

Lemma DurationFormat_empty_minUnit_witness :
  exists f,
    DurationFormat {| DurationOptions.maxUnit := Some "minute";
                      DurationOptions.minUnit := Some EmptyString |}
    = Return f
    /\ maxUnitIdx f = 1%nat /\ minUnitIdx f = 3%nat
    /\ format_duration f 1000 = Throw TypeError.
Proof.
  apply (DurationFormat_empty_minUnit "minute" 1 1000). reflexivity.
Defined.

(** X2: The construction of the formatter fails exactly when a given unit is
    a non-empty name outside [durationFormatOrder]; maxUnit is looked at
    first.  The indices of a formatter are always inside the list. *)
Theorem DurationFormat_cases (options : DurationOptions.t) :
  let maxUnit := match DurationOptions.maxUnit options with
                 | Some u => u | None => "hour" end in
  let minUnit := match DurationOptions.minUnit options with
                 | Some u => u | None => "second" end in
  match DurationFormat options with
  | Return f =>
      (maxUnitIdx f < 4)%nat /\ (minUnitIdx f < 4)%nat
      /\ (maxUnit = EmptyString \/ In maxUnit durationFormatOrder)
      /\ (minUnit = EmptyString \/ In minUnit durationFormatOrder)
      /\ resolvedOptions f
         = {| ResolvedOptions.maxUnit := maxUnit;
              ResolvedOptions.minUnit := minUnit |}
  | Throw e =>
      (maxUnit <> EmptyString /\ ~ In maxUnit durationFormatOrder
       /\ e = Error ("Unknown unit type: " ++ maxUnit))
      \/ ((maxUnit = EmptyString \/ In maxUnit durationFormatOrder)
          /\ minUnit <> EmptyString /\ ~ In minUnit durationFormatOrder
          /\ e = Error ("Unknown unit type: " ++ minUnit))
  end.
Proof.
  intros maxUnit minUnit. unfold DurationFormat.
  fold maxUnit. fold minUnit.
  cbn [ResolvedOptions.maxUnit ResolvedOptions.minUnit].
  assert (K : forall name i,
             nth_error durationFormatOrder i = Some name ->
             (i < 4)%nat /\ In name durationFormatOrder).
  { intros name i N. split.
    - apply (nth_error_Some durationFormatOrder i). congruence.
    - eapply nth_error_In; eauto. }
  pose proof (getDurationUnitIdx_result maxUnit 0) as Cmax.
  destruct (getDurationUnitIdx maxUnit 0) as [ a | e ]; cbn [bind].
  - pose proof (getDurationUnitIdx_result minUnit
                  (List.length durationFormatOrder - 1)) as Cmin.
    assert (A : (a < 4)%nat
                /\ (maxUnit = EmptyString \/ In maxUnit durationFormatOrder)).
    { destruct Cmax as [ [E ->] | [_ N] ]; [ split; [ lia | now left ] | ].
      destruct (K _ _ N). auto. }
    destruct (getDurationUnitIdx minUnit (List.length durationFormatOrder - 1))
      as [ b | e ]; cbn [bind].
    + cbn [maxUnitIdx minUnitIdx resolvedOptions].
      destruct A as [A1 A2].
      split; [ exact A1 | ].
      destruct Cmin as [ [E ->] | [_ N] ].
      * split; [ simpl; lia | ]. split; [ exact A2 | ].
        split; [ now left | reflexivity ].
      * destruct (K _ _ N). auto 6.
    + right. destruct A as [_ A2]. tauto.
  - left. exact Cmax.
Qed.

(** ** splitIntoTimeUnits *)

(** X4: The sign of the input plays no part in the breakdown. *)
Theorem splitIntoTimeUnits_opp (v : Q) (maxUnitIdx minUnitIdx : nat) :
  splitIntoTimeUnits (- v) maxUnitIdx minUnitIdx
  = splitIntoTimeUnits v maxUnitIdx minUnitIdx.
Proof.
  unfold splitIntoTimeUnits. apply split_loop_comp. apply Qabs_opp.
Qed.

Lemma inject_Z_pos (V : Z) : 0 < V -> (0 < inject_Z V)%Q.
Proof.
  intros P. replace 0%Q with (inject_Z 0) by reflexivity.
  now rewrite <- Zlt_Qlt.
Qed.

Lemma Qdiv_mult_cancel (x V : Q) : (0 < V)%Q -> (x / V * V == x)%Q.
Proof.
  intros P. field. intros H. rewrite H in P. discriminate.
Qed.

(** The quotient and the rest of a floor step. *)
Lemma floor_step (x : Q) (V : Z) :
  (0 <= x)%Q -> 0 < V ->
  let m := Math_floor (x / inject_Z V) in
  0 <= m
  /\ (0 <= x - inject_Z m * inject_Z V)%Q
  /\ (x - inject_Z m * inject_Z V < inject_Z V)%Q
  /\ m * V <= Qfloor x.
Proof.
  intros Px PV m. pose proof (inject_Z_pos V PV) as PW.
  set (W := inject_Z V) in *.
  pose proof (Qfloor_le (x / W)) as Lo.
  pose proof (Qlt_floor (x / W)) as Hi.
  fold (Math_floor (x / W)) in Lo, Hi. fold m in Lo, Hi.
  rewrite inject_Z_plus in Hi. change (inject_Z 1) with 1%Q in Hi.
  pose proof (Qdiv_mult_cancel x W PW) as C.
  assert (Lo' : (inject_Z m * W <= x)%Q).
  { apply Qle_trans with (x / W * W)%Q;
      [ apply Qmult_le_compat_r; [ exact Lo | lra ] | rewrite C; lra ]. }
  assert (Hi' : (x < (inject_Z m + 1) * W)%Q).
  { apply Qle_lt_trans with (x / W * W)%Q;
      [ rewrite C; lra | apply Qmult_lt_compat_r; [ exact PW | exact Hi ] ]. }
  assert (P0 : 0 <= m).
  { unfold m, Math_floor. change 0 with (Qfloor 0).
    apply Qfloor_resp_le.
    apply Qle_shift_div_l; [ exact PW | lra ]. }
  split; [ exact P0 | ]. split; [ lra | ]. split; [ lra | ].
  rewrite <- (Qfloor_Z (m * V)). apply Qfloor_resp_le.
  rewrite inject_Z_mult. exact Lo'.
Qed.

(** The quotient and the rest of the rounding step. *)
Lemma round_step (x : Q) (V : Z) :
  (0 <= x)%Q -> 0 < V ->
  let m := Math_round (x / inject_Z V) in
  0 <= m
  /\ (Qabs (inject_Z (m * V) - x) <= inject_Z V / 2)%Q.
Proof.
  intros Px PV m. pose proof (inject_Z_pos V PV) as PW.
  split.
  - unfold m, Math_round. change 0 with (Qfloor 0).
    apply Qfloor_resp_le.
    assert (0 <= x / inject_Z V)%Q
      by (apply Qle_shift_div_l; [ exact PW | lra ]).
    lra.
  - rewrite inject_Z_mult.
    set (W := inject_Z V) in *.
    pose proof (Qdiv_mult_cancel x W PW) as C.
    assert (E : (inject_Z m * W - x == (inject_Z m - x / W) * W)%Q).
    { setoid_replace ((inject_Z m - x / W) * W)%Q
        with (inject_Z m * W - x / W * W)%Q by ring.
      rewrite C. reflexivity. }
    rewrite E, Qabs_Qmult, (Qabs_pos W) by lra.
    setoid_replace (W / 2)%Q with ((1 # 2) * W)%Q by field.
    apply Qmult_le_compat_r; [ apply Math_round_near | lra ].
Qed.

Lemma split_loop_unfold (remaining i minIdx : nat) (x : Q) (acc : breakdown) :
  (i < 4)%nat ->
  exists key,
    nth_error durationFormatOrder i = Some key
    /\ (exists el, get key durationFormatElements = Some el
                   /\ DurationElement.value el = unit_value i)
    /\ split_loop (S remaining) i minIdx x acc
       = let m := if (i =? minIdx)%nat
                  then Math_round (x / inject_Z (unit_value i))
                  else Math_floor (x / inject_Z (unit_value i)) in
         split_loop remaining (S i) minIdx
           (x - inject_Z m * inject_Z (unit_value i))
           (acc ++ [(key, m)])%list.
Proof.
  intros L.
  destruct (order_entry i L) as (key & el & N & G & V & P).
  exists key. split; [ exact N | split; [ now exists el | ] ].
  cbn [split_loop]. rewrite N. unfold member. rewrite G. cbn [bind].
  rewrite V. reflexivity.
Qed.

Lemma breakdown_total_app (a b : breakdown) :
  breakdown_total (a ++ b)%list = breakdown_total a + breakdown_total b.
Proof.
  induction a as [ | [key m] a IH ]; simpl; [ reflexivity | ].
  rewrite IH. lia.
Qed.

Lemma unit_value_pred (i : nat) :
  (i < 4)%nat -> exists q, 1 <= q /\ unit_value (i - 1) = q * unit_value i.
Proof.
  intros L.
  destruct i as [ | [ | [ | [ | i ] ] ] ];
    [ exists 1 | exists 60 | exists 60 | exists 100 | lia ];
    (split; [ lia | reflexivity ]).
Qed.

(** The loop on any non-negative input, run from index [i] up to the
    smallest unit: the floor steps form a [chain], the last entry is the
    rounded rest, and the entries are worth the input to within half a
    smallest unit. *)
Lemma split_loop_any (remaining : nat) :
  forall (i minIdx : nat) (x : Q) (acc : breakdown),
    (i + remaining = minIdx)%nat -> (minIdx < 4)%nat -> (0 <= x)%Q ->
    exists (front : breakdown) (m : Z) (key : string),
      split_loop (S remaining) i minIdx x acc
      = Return (acc ++ front ++ [(key, m)])%list
      /\ nth_error durationFormatOrder minIdx = Some key
      /\ List.length front = remaining
      /\ chain (Qfloor x) i front
      /\ 0 <= m
      /\ (remaining = O ->
          m = Math_round (x / inject_Z (unit_value minIdx)))
      /\ (remaining <> O \/ (x < inject_Z (unit_value (minIdx - 1)))%Q ->
          m * unit_value minIdx <= unit_value (minIdx - 1))
      /\ (Qabs (inject_Z (breakdown_total (front ++ [(key, m)])%list) - x)
          <= inject_Z (unit_value minIdx) / 2)%Q
      /\ (forall k0, remaining <> O ->
                     nth_error durationFormatOrder i = Some k0 ->
                     hd_error front
                     = Some (k0, Math_floor (x / inject_Z (unit_value i)))).
Proof.
  induction remaining as [ | remaining IH ]; intros i minIdx x acc L L4 Px.
  - rewrite Nat.add_0_r in L. subst minIdx.
    destruct (split_loop_unfold 0 i i x acc L4) as (key & N & (el & G & V) & St).
    destruct (order_entry i L4) as (_ & _ & _ & _ & _ & PV).
    destruct (round_step x (unit_value i) Px PV) as [Pm Near].
    rewrite Nat.eqb_refl in St. cbv zeta in St. cbn [split_loop] in St.
    exists [], (Math_round (x / inject_Z (unit_value i))), key.
    split; [ exact St | ]. split; [ exact N | ]. split; [ reflexivity | ].
    split; [ exact I | ]. split; [ exact Pm | ]. split; [ reflexivity | ].
    split.
    + intros [ NZ | B ]; [ now contradiction NZ | ].
      (* the rounded quotient of a rest below the previous unit *)
      set (m := Math_round (x / inject_Z (unit_value i))) in *.
      assert (Lm : (inject_Z (m * unit_value i)
                    < inject_Z (unit_value (i - 1)) + inject_Z (unit_value i))%Q).
      { apply Qabs_Qle_condition in Near.
        pose proof (inject_Z_pos _ PV).
        assert (inject_Z (unit_value i) / 2 < inject_Z (unit_value i))%Q.
        { apply Qlt_shift_div_r; lra. }
        lra. }
      rewrite <- inject_Z_plus, <- Zlt_Qlt in Lm.
      destruct (unit_value_pred i L4) as (q & Pq & Eq).
      rewrite Eq in Lm |- *. clear - Lm PV.
      apply Z.mul_le_mono_nonneg_r; [ lia | ].
      assert (m < q + 1); [ | lia ].
      apply Z.mul_lt_mono_pos_r with (p := unit_value i); lia.
    + split; [ | intros k0 NZ; now contradiction NZ ].
      cbn [app breakdown_total]. rewrite G, V, Z.add_0_r. exact Near.
  - assert (Li : (i < 4)%nat) by lia.
    destruct (split_loop_unfold (S remaining) i minIdx x acc Li)
      as (key & N & (el & G & V) & St).
    destruct (order_entry i Li) as (_ & _ & _ & _ & _ & PV).
    destruct (Nat.eqb_spec i minIdx) as [ E | _ ]; [ lia | ].
    cbv zeta in St.
    destruct (floor_step x (unit_value i) Px PV) as (Pm & Lo & Hi & Fl).
    set (m0 := Math_floor (x / inject_Z (unit_value i))) in *.
    set (x' := (x - inject_Z m0 * inject_Z (unit_value i))%Q) in *.
    destruct (IH (S i) minIdx x' (acc ++ [(key, m0)])%list)
      as (front & m & kmin & R & Nmin & Len & C & P & _ & B & Near & _);
      try lia; try exact Lo.
    exists ((key, m0) :: front), m, kmin.
    split; [ rewrite St, R, <- !app_assoc; reflexivity | ].
    split; [ exact Nmin | ]. split; [ simpl; lia | ].
    split.
    { cbn [chain]. split; [ exact N | ]. split; [ exact Pm | ].
      split; [ exact Fl | ].
      apply chain_mono with (bound := Qfloor x'); [ | exact C ].
      assert (Qfloor x' < unit_value i); [ | lia ].
      rewrite Zlt_Qlt. apply Qle_lt_trans with x'; [ apply Qfloor_le | exact Hi ]. }
    split; [ exact P | ]. split; [ intros; discriminate | ].
    split.
    { intros _. apply B.
      destruct remaining as [ | remaining ]; [ right | left; discriminate ].
      replace (minIdx - 1)%nat with i by lia. exact Hi. }
    split; [ | intros k0 _ N0; cbn [hd_error]; congruence ].
    cbn [app breakdown_total]. rewrite G, V.
    rewrite inject_Z_plus, inject_Z_mult.
    set (t := inject_Z (breakdown_total (front ++ [(kmin, m)])%list)) in *.
    setoid_replace (inject_Z m0 * inject_Z (unit_value i) + t - x)%Q
      with (t - x')%Q by (unfold x'; ring).
    exact Near.
Qed.

Lemma get_app_Some {A : Type} (key : string) (a b : list (string * A)) (m : A) :
  get key a = Some m -> get key (a ++ b)%list = Some m.
Proof.
  induction a as [ | [k x] a IH ]; simpl; [ discriminate | ].
  destruct (String.eqb k key); auto.
Qed.

Lemma get_app_None {A : Type} (key : string) (a b : list (string * A)) :
  get key a = None -> get key (a ++ b)%list = get key b.
Proof.
  induction a as [ | [k x] a IH ]; simpl; [ reflexivity | ].
  destruct (String.eqb k key); [ discriminate | auto ].
Qed.

Lemma chain_get_None (units : breakdown) :
  forall (bound : Z) (i n : nat) (key : string),
    chain bound i units ->
    (i + List.length units <= n)%nat ->
    nth_error durationFormatOrder n = Some key ->
    get key units = None.
Proof.
  induction units as [ | [k0 m0] units IH ]; intros bound i n key C L N;
    [ reflexivity | ].
  cbn [chain] in C. destruct C as (N0 & _ & _ & C). cbn [get].
  destruct (String.eqb_spec k0 key) as [ -> | _ ].
  - pose proof (order_injective _ _ _ N0 N). simpl in L. lia.
  - apply (IH _ (S i) n key C); [ simpl in L; lia | exact N ].
Qed.

(** The shape of the breakdown of any input over a valid range. *)
Lemma splitIntoTimeUnits_shape (v : Q) (i j : nat) :
  (i <= j)%nat -> (j < 4)%nat ->
  exists (front : breakdown) (m : Z) (key : string),
    splitIntoTimeUnits v i j = Return (front ++ [(key, m)])%list
    /\ nth_error durationFormatOrder j = Some key
    /\ List.length front = (j - i)%nat
    /\ chain (Qfloor (Qabs v)) i front
    /\ 0 <= m
    /\ (i = j -> m = Math_round (Qabs v / inject_Z (unit_value j)))
    /\ ((i < j)%nat -> m * unit_value j <= unit_value (j - 1))
    /\ (Qabs (inject_Z (breakdown_total (front ++ [(key, m)])%list) - Qabs v)
        <= inject_Z (unit_value j) / 2)%Q
    /\ (forall k0, (i < j)%nat ->
                   nth_error durationFormatOrder i = Some k0 ->
                   hd_error front
                   = Some (k0, Math_floor (Qabs v / inject_Z (unit_value i)))).
Proof.
  intros L L4. unfold splitIntoTimeUnits.
  replace (S j - i)%nat with (S (j - i)) by lia.
  destruct (split_loop_any (j - i) i j (Qabs v) [])
    as (front & m & key & R & N & Len & C & P & Rd & B & Near & Hd);
    try lia; try apply Qabs_nonneg.
  exists front, m, key. rewrite R.
  split; [ reflexivity | ]. split; [ exact N | ]. split; [ exact Len | ].
  split; [ exact C | ]. split; [ exact P | ].
  split; [ intros E; apply Rd; lia | ].
  split; [ intros Lij; apply B; left; lia | ].
  split; [ exact Near | ].
  intros k0 Lij. apply Hd. lia.
Qed.

(** X5: On any input, whether a multiple of the smallest unit or not, a valid
    range gives the units from maxUnit to minUnit in order, worth the
    absolute input to within half a smallest unit. *)
Theorem splitIntoTimeUnits_near (v : Q) (i j : nat) :
  (i <= j)%nat -> (j < 4)%nat ->
  exists units : breakdown,
    splitIntoTimeUnits v i j = Return units
    /\ map fst units = firstn (S j - i) (skipn i durationFormatOrder)
    /\ (Qabs (inject_Z (breakdown_total units) - Qabs v)
        <= inject_Z (unit_value j) / 2)%Q.
Proof.
  intros L L4.
  destruct (splitIntoTimeUnits_shape v i j L L4)
    as (front & m & key & R & N & Len & C & _ & _ & _ & Near & _).
  exists (front ++ [(key, m)])%list.
  split; [ exact R | split; [ | exact Near ] ].
  rewrite map_app, (chain_keys _ _ _ C), Len. cbn [map fst].
  clear - L L4 N.
  destruct j as [ | [ | [ | [ | j ] ] ] ]; try lia;
    destruct i as [ | [ | [ | [ | i ] ] ] ]; try lia;
    injection N as <-; reflexivity.
Qed.

Lemma splitIntoTimeUnits_near_witness :
  exists units : breakdown,
    splitIntoTimeUnits (59600 # 1) 1 2 = Return units
    /\ map fst units = firstn (3 - 1) (skipn 1 durationFormatOrder)
    /\ (Qabs (inject_Z (breakdown_total units) - Qabs (59600 # 1))
        <= inject_Z (unit_value 2) / 2)%Q.
Proof.
  apply (splitIntoTimeUnits_near (59600 # 1) 1 2); lia.
Defined.

(** X6: The fields of the breakdown of any input: none is negative; the
    largest unit holds the whole quotient (the floor of |v| / base when a
    smaller unit follows, the rounding when it is the only unit); a unit
    strictly between stays below the ratio to its predecessor; the smallest
    unit, being rounded, can reach that ratio but not exceed it. *)
Theorem splitIntoTimeUnits_fields (v : Q) (i j : nat) :
  (i <= j)%nat -> (j < 4)%nat ->
  exists units : breakdown,
    splitIntoTimeUnits v i j = Return units
    /\ forall (n : nat) (key : string),
        (i <= n <= j)%nat ->
        nth_error durationFormatOrder n = Some key ->
        exists m,
          get key units = Some m
          /\ 0 <= m
          /\ (n = i -> (i < j)%nat ->
              m = Math_floor (Qabs v / inject_Z (unit_value i)))
          /\ (n = i -> i = j ->
              m = Math_round (Qabs v / inject_Z (unit_value i)))
          /\ ((i < n < j)%nat -> m < unit_value (n - 1) / unit_value n)
          /\ ((i < n)%nat -> n = j -> m <= unit_value (n - 1) / unit_value n).
Proof.
  intros L L4.
  destruct (splitIntoTimeUnits_shape v i j L L4)
    as (front & m & kmin & R & N & Len & C & P & Rd & B & _ & Hd).
  exists (front ++ [(kmin, m)])%list. split; [ exact R | ].
  intros n key Ln Nn.
  destruct (Nat.eq_dec n j) as [ -> | NE ].
  - (* the smallest unit: the last entry *)
    assert (key = kmin) by congruence. subst key.
    exists m. split.
    { rewrite get_app_None.
      - cbn [get]. now rewrite String.eqb_refl.
      - apply (chain_get_None front _ i j kmin C); [ lia | exact N ]. }
    split; [ exact P | ].
    split; [ intros; lia | ].
    split; [ intros -> _; now apply Rd | ].
    split; [ intros; lia | ].
    intros Lij _. specialize (B Lij).
    destruct (unit_value_pred j L4) as (q & Pq & Eq).
    destruct (order_entry j L4) as (_ & _ & _ & _ & _ & PV).
    rewrite Eq in B |- *. rewrite Z.div_mul by lia.
    apply Z.mul_le_mono_pos_r with (p := unit_value j); lia.
  - (* a unit above the smallest: an entry of the chain *)
    destruct (chain_get front _ i n key C) as (m' & G & P' & B'); try lia;
      [ exact Nn | ].
    exists m'. split; [ now apply get_app_Some | ].
    split; [ exact P' | ].
    split.
    { intros -> Lij. specialize (Hd key Lij Nn).
      destruct front as [ | [k0 m0] front ]; [ discriminate | ].
      injection Hd as -> ->. cbn [get] in G.
      rewrite String.eqb_refl in G. now injection G as <-. }
    split; [ intros; lia | ].
    split; [ | intros; lia ].
    intros Lin.
    destruct (Nat.eqb_spec n i) as [ | _ ]; [ lia | ].
    assert (Ln4 : (n < 4)%nat) by lia.
    destruct (unit_value_pred n Ln4) as (q & Pq & Eq).
    destruct (order_entry n Ln4) as (_ & _ & _ & _ & _ & PV).
    rewrite Eq in B' |- *. rewrite Z.div_mul by lia.
    apply Z.mul_lt_mono_pos_r with (p := unit_value n); lia.
Qed.

Lemma splitIntoTimeUnits_fields_witness :
  exists units : breakdown,
    splitIntoTimeUnits (59600 # 1) 1 2 = Return units
    /\ forall (n : nat) (key : string),
        (1 <= n <= 2)%nat ->
        nth_error durationFormatOrder n = Some key ->
        exists m,
          get key units = Some m
          /\ 0 <= m
          /\ (n = 1%nat -> (1 < 2)%nat ->
              m = Math_floor (Qabs (59600 # 1) / inject_Z (unit_value 1)))
          /\ (n = 1%nat -> 1%nat = 2%nat ->
              m = Math_round (Qabs (59600 # 1) / inject_Z (unit_value 1)))
          /\ ((1 < n < 2)%nat -> m < unit_value (n - 1) / unit_value n)
          /\ ((1 < n)%nat -> n = 2%nat -> m <= unit_value (n - 1) / unit_value n).
Proof.
  apply (splitIntoTimeUnits_fields (59600 # 1) 1 2); lia.
Defined.

(** Without the rounding that [format] does first, the smallest unit does
    reach the ratio: 59.6 seconds split into minutes and seconds are
    0 minutes and 60 seconds; through [format] they are 1 minute and
    0 seconds. *)
Lemma splitIntoTimeUnits_reaches_ratio :
  splitIntoTimeUnits (59600 # 1) 1 2 = Return [("minute", 0); ("second", 60)]
  /\ format_duration
       {| resolvedOptions := {| ResolvedOptions.maxUnit := "minute";
                                ResolvedOptions.minUnit := "second" |};
          maxUnitIdx := 1; minUnitIdx := 2 |} (59600 # 1)
     = Return ((60000 # 1)%Q, [("minute", 1); ("second", 0)]).
Proof. split; vm_compute; reflexivity. Qed.

(** ** format *)

Lemma chain_keys_known (units : breakdown) :
  forall (bound : Z) (i : nat),
    chain bound i units ->
    Forall (fun e => In (fst e) durationFormatOrder) units.
Proof.
  induction units as [ | [key m] units IH ]; intros bound i C;
    constructor.
  - cbn [chain] in C. destruct C as (N & _). cbn [fst].
    apply (nth_error_In durationFormatOrder i N).
  - cbn [chain] in C. destruct C as (_ & _ & _ & C). eapply IH; eauto.
Qed.

Lemma member_known (key : string) :
  In key durationFormatOrder ->
  exists el, member key durationFormatElements = Return el.
Proof.
  simpl. intros [ <- | [ <- | [ <- | [ <- | [] ] ] ] ];
    eexists; reflexivity.
Qed.

Section FormatProperties.
Variable fmt : string.
Variable numFormatter_format : Z -> string.

Lemma fill_tokens_known (units : breakdown) :
  Forall (fun e => In (fst e) durationFormatOrder) units ->
  forall s, exists s', fill_tokens numFormatter_format units s = Return s'.
Proof.
  induction 1 as [ | [key m] units K _ IH ]; intros s; cbn [fill_tokens].
  - now exists s.
  - destruct (member_known key K) as [el ->]. cbn [bind]. apply IH.
Qed.

(** [format] in terms of the rounded count [k] of smallest units. *)
Lemma format_unfold (maxUnit minUnit : string) (i j : nat)
  (minEl : DurationElement.t) (d : Q) :
  get minUnit durationFormatElements = Some minEl ->
  let k := Math_round (d / inject_Z (DurationElement.value minEl)) in
  format fmt numFormatter_format
    {| resolvedOptions := {| ResolvedOptions.maxUnit := maxUnit;
                             ResolvedOptions.minUnit := minUnit |};
       maxUnitIdx := i; minUnitIdx := j |} d
  = let* duration :=
      splitIntoTimeUnits
        (inject_Z (k * DurationElement.value minEl)) i j in
    let* string_ := trimDurationPattern fmt maxUnit minUnit in
    let* string_ := fill_tokens numFormatter_format duration string_ in
    if k <? 0 then Return ("-" ++ string_) else Return string_.
Proof.
  intros G k. unfold format, format_duration.
  cbn [resolvedOptions ResolvedOptions.minUnit ResolvedOptions.maxUnit
       maxUnitIdx minUnitIdx].
  unfold member at 1. rewrite G. cbn [bind]. fold k.
  assert (E : splitIntoTimeUnits
                (inject_Z k * inject_Z (DurationElement.value minEl)) i j
              = splitIntoTimeUnits
                  (inject_Z (k * DurationElement.value minEl)) i j).
  { unfold splitIntoTimeUnits. apply split_loop_comp.
    rewrite inject_Z_mult. reflexivity. }
  rewrite E.
  destruct (splitIntoTimeUnits (inject_Z (k * DurationElement.value minEl)) i j)
    as [ duration | e ]; cbn [bind]; [ | reflexivity ].
  destruct (trimDurationPattern fmt maxUnit minUnit) as [ s | e ];
    cbn [bind]; [ | reflexivity ].
  destruct (fill_tokens numFormatter_format duration s) as [ s' | e ];
    cbn [bind]; [ | reflexivity ].
  assert (S : Qltb (inject_Z k * inject_Z (DurationElement.value minEl)) 0
              = (k <? 0)).
  { pose proof (token_length _ _ G) as _.
    assert (PV : 0 < DurationElement.value minEl).
    { revert G. unfold durationFormatElements. cbn [get].
      repeat match goal with
             | |- context [String.eqb ?a minUnit] =>
                 destruct (String.eqb a minUnit)
             end; intros [= <-]; reflexivity. }
    destruct (Z.ltb_spec k 0) as [ Lk | Lk ].
    - apply Qltb_lt. rewrite <- inject_Z_mult.
      replace 0%Q with (inject_Z 0) by reflexivity.
      rewrite <- Zlt_Qlt. nia.
    - apply Qltb_nlt. rewrite <- inject_Z_mult.
      replace 0%Q with (inject_Z 0) by reflexivity.
      rewrite <- Zlt_Qlt. nia. }
  rewrite S. reflexivity.
Qed.

(** X7: For known units, in either order, [format] throws nothing: its
    text is the trimmed pattern filled with the breakdown of the absolute
    rounded input, and a minus sign is put before that text exactly when
    the input rounds to a negative count of smallest units; an input that
    rounds to zero gets none. *)
Theorem format_sign (maxUnit minUnit : string) (i j : nat) (d : Q) :
  nth_error durationFormatOrder i = Some maxUnit ->
  nth_error durationFormatOrder j = Some minUnit ->
  exists (f : durationFormatter) (minEl : DurationElement.t)
         (units : breakdown) (pattern s : string),
    DurationFormat {| DurationOptions.maxUnit := Some maxUnit;
                      DurationOptions.minUnit := Some minUnit |} = Return f
    /\ get minUnit durationFormatElements = Some minEl
    /\ splitIntoTimeUnits
         (inject_Z
            (Z.abs (Math_round (d / inject_Z (DurationElement.value minEl)))
             * DurationElement.value minEl)) i j
       = Return units
    /\ trimDurationPattern fmt maxUnit minUnit = Return pattern
    /\ fill_tokens numFormatter_format units pattern = Return s
    /\ format fmt numFormatter_format f d
       = Return
           (if Math_round (d / inject_Z (DurationElement.value minEl)) <? 0
            then "-" ++ s else s).
Proof.
  intros Ni Nj.
  assert (L4 : (j < 4)%nat).
  { apply (nth_error_Some durationFormatOrder j). congruence. }
  destruct (order_entry j L4) as (key & minEl & N & G & V & P).
  assert (key = minUnit) by congruence. subst key.
  rewrite (DurationFormat_known _ _ _ _ Ni Nj).
  eexists. exists minEl.
  rewrite (format_unfold maxUnit minUnit i j minEl d G). cbv zeta.
  set (k := Math_round (d / inject_Z (DurationElement.value minEl))).
  assert (A : splitIntoTimeUnits
                (inject_Z (k * DurationElement.value minEl)) i j
              = splitIntoTimeUnits
                  (inject_Z (Z.abs k * DurationElement.value minEl)) i j).
  { unfold splitIntoTimeUnits. apply split_loop_comp.
    change (Qabs (inject_Z (k * DurationElement.value minEl)))
      with (inject_Z (Z.abs (k * DurationElement.value minEl))).
    change (Qabs (inject_Z (Z.abs k * DurationElement.value minEl)))
      with (inject_Z (Z.abs (Z.abs k * DurationElement.value minEl))).
    rewrite !Z.abs_mul, Z.abs_idemp. reflexivity. }
  rewrite A.
  assert (U : exists units,
             splitIntoTimeUnits
               (inject_Z (Z.abs k * DurationElement.value minEl)) i j
             = Return units
             /\ Forall (fun e => In (fst e) durationFormatOrder) units).
  { destruct (Nat.le_gt_cases i j) as [ L | L ].
    - destruct (splitIntoTimeUnits_int
                  (inject_Z (Z.abs k * DurationElement.value minEl))
                  (Z.abs k * unit_value j) i j L L4)
        as (units & S & _ & _ & C).
      + apply Z.divide_factor_r.
      + rewrite V. reflexivity.
      + exists units. split; [ exact S | eapply chain_keys_known; eauto ].
    - exists []. split; [ | constructor ].
      unfold splitIntoTimeUnits.
      replace (S j - i)%nat with O by lia. reflexivity. }
  destruct U as (units & -> & K). cbn [bind].
  assert (T : exists s0, trimDurationPattern fmt maxUnit minUnit = Return s0).
  { unfold trimDurationPattern, member. rewrite G.
    destruct (member_known maxUnit) as [el E].
    - eapply nth_error_In; eauto.
    - unfold member in E. destruct (get maxUnit durationFormatElements);
        [ | discriminate ]. cbn [bind]. eexists; reflexivity. }
  destruct T as (s0 & ->). cbn [bind].
  destruct (fill_tokens_known units K s0) as (s & Es). rewrite Es.
  cbn [bind].
  exists units, s0, s.
  split; [ reflexivity | ]. split; [ exact G | ].
  split; [ reflexivity | ]. split; [ reflexivity | ].
  split; [ exact Es | ].
  destruct (k <? 0); reflexivity.
Qed.
End FormatProperties.

Lemma format_sign_witness :
  exists (f : durationFormatter) (minEl : DurationElement.t)
         (units : breakdown) (pattern s : string),
    DurationFormat {| DurationOptions.maxUnit := Some "hour";
                      DurationOptions.minUnit := Some "second" |} = Return f
    /\ get "second" durationFormatElements = Some minEl
    /\ splitIntoTimeUnits
         (inject_Z
            (Z.abs (Math_round (-400 / inject_Z (DurationElement.value minEl)))
             * DurationElement.value minEl)) 0 2
       = Return units
    /\ trimDurationPattern "hh:mm:ss.SS" "hour" "second" = Return pattern
    /\ fill_tokens (fun _ => "00") units pattern = Return s
    /\ format "hh:mm:ss.SS" (fun _ => "00") f (-400)
       = Return
           (if Math_round (-400 / inject_Z (DurationElement.value minEl)) <? 0
            then "-" ++ s else s).
Proof.
  apply (format_sign "hh:mm:ss.SS" (fun _ => "00") "hour" "second" 0 2 (-400));
    reflexivity.
Defined.

(** X8: On a positive whole number of smallest units, the text of the negated
    input is the text of the input behind a minus sign. *)
Theorem format_opp (fmt : string) (numFormatter_format : Z -> string)
  (maxUnit minUnit : string) (i j : nat) (minEl : DurationElement.t)
  (k : Z) (s : string) :
  get minUnit durationFormatElements = Some minEl ->
  0 < k ->
  let f := {| resolvedOptions := {| ResolvedOptions.maxUnit := maxUnit;
                                    ResolvedOptions.minUnit := minUnit |};
              maxUnitIdx := i; minUnitIdx := j |} in
  let d := inject_Z (k * DurationElement.value minEl) in
  format fmt numFormatter_format f d = Return s ->
  format fmt numFormatter_format f (- d) = Return ("-" ++ s).
Proof.
  intros G Pk f d. unfold f.
  rewrite !(format_unfold fmt numFormatter_format maxUnit minUnit i j minEl _ G).
  cbv zeta.
  assert (PV : 0 < DurationElement.value minEl).
  { revert G. unfold durationFormatElements. cbn [get].
    repeat match goal with
           | |- context [String.eqb ?a minUnit] =>
               destruct (String.eqb a minUnit)
           end; intros [= <-]; reflexivity. }
  set (V := DurationElement.value minEl) in *.
  assert (K1 : Math_round (d / inject_Z V) = k).
  { unfold d. rewrite (Math_round_div_exact (k * V) V); try lia.
    - apply Z.div_mul. lia.
    - reflexivity.
    - apply Z.divide_factor_r. }
  assert (K2 : Math_round (- d / inject_Z V) = - k).
  { unfold d. rewrite (Math_round_div_exact (- k * V) V); try lia.
    - apply Z.div_mul. lia.
    - rewrite <- inject_Z_opp. apply inject_Z_injective. lia.
    - apply Z.divide_factor_r. }
  rewrite K1, K2.
  assert (E : splitIntoTimeUnits (inject_Z (- k * V)) i j
              = splitIntoTimeUnits (inject_Z (k * V)) i j).
  { unfold splitIntoTimeUnits. apply split_loop_comp.
    replace (- k * V) with (- (k * V)) by lia.
    rewrite inject_Z_opp. apply Qabs_opp. }
  rewrite E.
  destruct (splitIntoTimeUnits (inject_Z (k * V)) i j) as [ units | e ];
    cbn [bind]; [ | discriminate ].
  destruct (trimDurationPattern fmt maxUnit minUnit) as [ s0 | e ];
    cbn [bind]; [ | discriminate ].
  destruct (fill_tokens numFormatter_format units s0) as [ s1 | e ];
    cbn [bind]; [ | discriminate ].
  replace (k <? 0) with false by (symmetry; apply Z.ltb_ge; lia).
  replace (- k <? 0) with true by (symmetry; apply Z.ltb_lt; lia).
  intros [= ->]. reflexivity.
Qed.

Lemma format_opp_witness :
  format "hh:mm:ss.SS" (fun _ => "00")
    {| resolvedOptions := {| ResolvedOptions.maxUnit := "hour";
                             ResolvedOptions.minUnit := "second" |};
       maxUnitIdx := 0; minUnitIdx := 2 |}
    (- inject_Z (5 * 1000))
  = Return ("-" ++ "00:00:00").
Proof.
  apply (format_opp "hh:mm:ss.SS" (fun _ => "00") "hour" "second" 0 2
           {| DurationElement.value := 1000; DurationElement.token := "ss" |}
           5 "00:00:00");
    [ reflexivity | lia | vm_compute; reflexivity ].
Defined.

(** ** trimDurationPattern *)

Lemma indexOf_occurs (s t : string) (p : nat) :
  t <> EmptyString -> occurs_at t s p ->
  exists i, indexOf s t = Z.of_nat i /\ first_occurrence t s i /\ (i <= p)%nat.
Proof.
  intros NE O. unfold indexOf.
  destruct (index 0 t s) as [ i | ] eqn:E.
  - exists i. split; [ reflexivity | ]. split.
    + split; [ exact (index_correct1 _ _ _ _ E) | ].
      intros q Lq. apply (index_correct2 _ _ _ _ E q); [ lia | exact Lq ].
    + destruct (Nat.le_gt_cases i p) as [ L | L ]; [ exact L | ].
      exfalso. apply (index_correct2 _ _ _ _ E p); [ lia | exact L | exact O ].
  - exfalso. apply (index_correct3 0 p t s E NE); [ lia | exact O ].
Qed.

(** X10: With the same unit at both ends, the result is the unit's token
    itself, whenever the pattern holds it. *)
Theorem trimDurationPattern_same_unit (pattern unit : string)
  (el : DurationElement.t) (p : nat) :
  get unit durationFormatElements = Some el ->
  occurs_at (DurationElement.token el) pattern p ->
  trimDurationPattern pattern unit unit = Return (DurationElement.token el).
Proof.
  intros G O.
  pose proof (token_length _ _ G) as Len.
  assert (NE : DurationElement.token el <> EmptyString).
  { intros E. rewrite E in Len. discriminate. }
  destruct (indexOf_occurs _ _ _ NE O) as (i & Ei & [Oi _] & _).
  pose proof (occurs_at_bound _ _ _ NE Oi) as B.
  unfold trimDurationPattern, member. rewrite G. cbn [bind].
  rewrite Ei. unfold js_substring, clamp.
  rewrite <- Nat2Z.inj_add.
  rewrite !Z.max_l, !Z.min_l, !Nat2Z.id by lia.
  rewrite Nat.min_l, Nat.max_r by lia.
  replace (i + length (DurationElement.token el) - i)%nat
    with (length (DurationElement.token el)) by lia.
  f_equal. exact Oi.
Qed.

Lemma trimDurationPattern_same_unit_witness :
  trimDurationPattern "hh:mm:ss.SS" "second" "second" = Return "ss".
Proof.
  apply (trimDurationPattern_same_unit "hh:mm:ss.SS" "second"
           {| DurationElement.value := 1000; DurationElement.token := "ss" |}
           6); reflexivity.
Defined.

(** X11: A pattern without maxUnit's token is cut from its very start: the
    result is the pattern up to the end of the first occurrence of
    minUnit's token, whatever stands before that token. *)
Theorem trimDurationPattern_absent_maxToken (pattern maxUnit minUnit : string)
  (maxEl minEl : DurationElement.t) (j : nat) :
  get maxUnit durationFormatElements = Some maxEl ->
  get minUnit durationFormatElements = Some minEl ->
  (forall p, ~ occurs_at (DurationElement.token maxEl) pattern p) ->
  first_occurrence (DurationElement.token minEl) pattern j ->
  trimDurationPattern pattern maxUnit minUnit
  = Return (substring 0 (j + length (DurationElement.token minEl)) pattern).
Proof.
  intros Gmax Gmin A Fj.
  pose proof (token_length _ _ Gmax) as Lmax.
  pose proof (token_length _ _ Gmin) as Lmin.
  assert (NEmax : DurationElement.token maxEl <> EmptyString).
  { intros E. rewrite E in Lmax. discriminate. }
  assert (NEmin : DurationElement.token minEl <> EmptyString).
  { intros E. rewrite E in Lmin. discriminate. }
  pose proof (occurs_at_bound _ _ _ NEmin (proj1 Fj)) as B.
  unfold trimDurationPattern, member. rewrite Gmax, Gmin. cbn [bind].
  rewrite (proj1 (indexOf_absent _ _ NEmax) A),
    (indexOf_first_occurrence _ _ _ NEmin Fj).
  unfold js_substring, clamp.
  rewrite <- Nat2Z.inj_add.
  rewrite Z.max_r, !Z.min_l, Z.max_l, Nat2Z.id by lia.
  change (Z.to_nat 0) with O.
  rewrite Nat.min_l, Nat.max_r, Nat.sub_0_r by lia. reflexivity.
Qed.

Lemma trimDurationPattern_absent_maxToken_witness :
  trimDurationPattern "x mm:ss" "hour" "second" = Return "x mm:ss".
Proof.
  apply (trimDurationPattern_absent_maxToken "x mm:ss" "hour" "second"
           {| DurationElement.value := 3600000; DurationElement.token := "hh" |}
           {| DurationElement.value := 1000; DurationElement.token := "ss" |}
           5); try reflexivity.
  - apply indexOf_absent; [ discriminate | reflexivity ].
  - split; [ reflexivity | ].
    intros q Lq. do 5 (destruct q as [ | q ]; [ discriminate | ]). lia.
Defined.

(** X12: A pattern without minUnit's token is cut at position 1, whatever the
    units: the result lies between position 1 and the first occurrence of
    maxUnit's token. *)
Theorem trimDurationPattern_absent_minToken (pattern maxUnit minUnit : string)
  (maxEl minEl : DurationElement.t) (i : nat) :
  get maxUnit durationFormatElements = Some maxEl ->
  get minUnit durationFormatElements = Some minEl ->
  first_occurrence (DurationElement.token maxEl) pattern i ->
  (forall p, ~ occurs_at (DurationElement.token minEl) pattern p) ->
  trimDurationPattern pattern maxUnit minUnit
  = Return (if (i =? 0)%nat then substring 0 1 pattern
            else substring 1 (i - 1) pattern).
Proof.
  intros Gmax Gmin Fi A.
  pose proof (token_length _ _ Gmax) as Lmax.
  pose proof (token_length _ _ Gmin) as Lmin.
  assert (NEmax : DurationElement.token maxEl <> EmptyString).
  { intros E. rewrite E in Lmax. discriminate. }
  assert (NEmin : DurationElement.token minEl <> EmptyString).
  { intros E. rewrite E in Lmin. discriminate. }
  pose proof (occurs_at_bound _ _ _ NEmax (proj1 Fi)) as B.
  unfold trimDurationPattern, member. rewrite Gmax, Gmin. cbn [bind].
  rewrite (proj1 (indexOf_absent _ _ NEmin) A),
    (indexOf_first_occurrence _ _ _ NEmax Fi), Lmin.
  unfold js_substring, clamp.
  change (-1 + Z.of_nat 2) with 1.
  rewrite Z.max_l, Z.min_l, Nat2Z.id by lia.
  rewrite Z.max_l, Z.min_l by lia. change (Z.to_nat 1) with 1%nat.
  destruct (Nat.eqb_spec i 0) as [ -> | NZ ].
  - reflexivity.
  - rewrite Nat.min_r, Nat.max_l by lia. reflexivity.
Qed.

Lemma trimDurationPattern_absent_minToken_witness :
  trimDurationPattern "a hh:mm" "hour" "second" = Return " ".
Proof.
  apply (trimDurationPattern_absent_minToken "a hh:mm" "hour" "second"
           {| DurationElement.value := 3600000; DurationElement.token := "hh" |}
           {| DurationElement.value := 1000; DurationElement.token := "ss" |}
           2); try reflexivity.
  - split; [ reflexivity | ].
    intros q Lq. do 2 (destruct q as [ | q ]; [ discriminate | ]). lia.
  - apply indexOf_absent; [ discriminate | reflexivity ].
Defined.

(** ** computeTimeUnits and getBestMatchUnit *)

Lemma Math_round_mono (x y : Q) : (x <= y)%Q -> Math_round x <= Math_round y.
Proof.
  intros L. unfold Math_round. apply Qfloor_resp_le. lra.
Qed.

Lemma computeTimeUnits_le (x y : Q) :
  (x <= y)%Q -> Units_le (computeTimeUnits x) (computeTimeUnits y).
Proof.
  intros L. unfold Units_le, computeTimeUnits.
  cbn [Units.millisecond Units.second Units.minute Units.hour Units.day
       Units.week Units.month Units.quarter Units.year].
  assert (S : forall (a b : Z) (c : Q),
             a <= b -> (0 < c)%Q ->
             Math_round (inject_Z a / c) <= Math_round (inject_Z b / c)).
  { intros a b c Lab Pc. apply Math_round_mono.
    apply Qmult_le_compat_r; [ now rewrite <- Zle_Qle | ].
    apply Qlt_le_weak, Qinv_lt_0_compat, Pc. }
  assert (Y : forall (a b : Z) (k : Q),
             a <= b -> (0 < k)%Q ->
             Math_round (inject_Z a * 400 / 146097 * k)
             <= Math_round (inject_Z b * 400 / 146097 * k)).
  { intros a b k Lab Pk. apply Math_round_mono.
    rewrite Zle_Qle in Lab. unfold Qdiv.
    repeat (apply Qmult_le_compat_r;
            [ | first [ lra | compute; discriminate ] ]).
    exact Lab. }
  pose proof (Math_round_mono x y L) as Lms.
  pose proof (S _ _ 1000%Q Lms eq_refl) as Ls.
  pose proof (S _ _ 60%Q Ls eq_refl) as Lm.
  pose proof (S _ _ 60%Q Lm eq_refl) as Lh.
  pose proof (S _ _ 24%Q Lh eq_refl) as Ld.
  split; [ exact Lms | ]. split; [ exact Ls | ]. split; [ exact Lm | ].
  split; [ exact Lh | ]. split; [ exact Ld | ].
  split; [ apply S; [ exact Ld | reflexivity ] | ].
  split; [ apply Y; [ exact Ld | reflexivity ] | ].
  split; [ apply Y; [ exact Ld | reflexivity ] | ].
  apply Math_round_mono. rewrite Zle_Qle in Ld. unfold Qdiv.
  repeat (apply Qmult_le_compat_r; [ | compute; discriminate ]).
  exact Ld.
Qed.

Lemma computeTimeUnits_0 :
  computeTimeUnits 0
  = {| Units.millisecond := 0; Units.second := 0; Units.minute := 0;
       Units.hour := 0; Units.day := 0; Units.week := 0; Units.month := 0;
       Units.quarter := 0; Units.year := 0 |}.
Proof. vm_compute. reflexivity. Qed.

Lemma Units_get_field (units : Units.t) (key : string) (m : Z) :
  Units.get units key = Some m ->
  m = Units.millisecond units \/ m = Units.second units
  \/ m = Units.minute units \/ m = Units.hour units \/ m = Units.day units
  \/ m = Units.week units \/ m = Units.month units
  \/ m = Units.quarter units \/ m = Units.year units.
Proof.
  unfold Units.get.
  repeat match goal with
         | |- (if ?b then _ else _) = _ -> _ => destruct b
         end; try discriminate; intros [= <-]; tauto.
Qed.

Lemma computeTimeUnits_nonneg (x : Q) (key : string) (m : Z) :
  (0 <= x)%Q -> Units.get (computeTimeUnits x) key = Some m -> 0 <= m.
Proof.
  intros P G. pose proof (computeTimeUnits_le 0 x P) as Z0.
  rewrite computeTimeUnits_0 in Z0. unfold Units_le in Z0.
  cbn [Units.millisecond Units.second Units.minute Units.hour Units.day
       Units.week Units.month Units.quarter Units.year] in Z0.
  apply Units_get_field in G. intuition congruence.
Qed.

Lemma computeTimeUnits_nonpos (y : Q) (key : string) (m : Z) :
  (y <= 0)%Q -> Units.get (computeTimeUnits y) key = Some m -> m <= 0.
Proof.
  intros P G. pose proof (computeTimeUnits_le y 0 P) as Z0.
  rewrite computeTimeUnits_0 in Z0. unfold Units_le in Z0.
  cbn [Units.millisecond Units.second Units.minute Units.hour Units.day
       Units.week Units.month Units.quarter Units.year] in Z0.
  apply Units_get_field in G. intuition congruence.
Qed.

(** X13: A later time never has a smaller count, in any unit; so a time that
    is not in the past has no negative count, and a time in the past no
    positive one. *)
Theorem computeTimeUnits_monotone (x y : Q) :
  (x <= y)%Q ->
  Units_le (computeTimeUnits x) (computeTimeUnits y)
  /\ ((0 <= x)%Q -> forall key m, Units.get (computeTimeUnits x) key = Some m ->
                                  0 <= m)
  /\ ((y <= 0)%Q -> forall key m, Units.get (computeTimeUnits y) key = Some m ->
                                  m <= 0).
Proof.
  intros L. split; [ now apply computeTimeUnits_le | ].
  split; intros P key m G.
  - now apply (computeTimeUnits_nonneg x key).
  - now apply (computeTimeUnits_nonpos y key).
Qed.

Lemma computeTimeUnits_monotone_witness :
  Units_le (computeTimeUnits (-2000)) (computeTimeUnits 7200000).
Proof.
  apply (computeTimeUnits_monotone (-2000) 7200000). lra.
Defined.

(** X18: A target that is not in the past is never told as "ago", whatever the
    unit asked for. *)
Theorem relativeTimeFormatId_future (now x : Q) (unit : string)
  (style : option string) :
  (now <= x)%Q ->
  exists u,
    FormatId.unit
      (relativeTimeFormatId now x
         {| RelativeOptions.unit := unit; RelativeOptions.style := style |})
    = u ++ "s" ++ "-until" ++ "-" ++ style_or_long style.
Proof.
  intros L. unfold relativeTimeFormatId.
  cbn [RelativeOptions.unit RelativeOptions.style FormatId.unit].
  set (units := computeTimeUnits (x - now)).
  set (u := if (unit =? "bestFit")%string then getBestMatchUnit units else unit).
  exists u.
  assert (T : lt0_prop (Units.get units u) = false).
  { destruct (Units.get units u) as [ m | ] eqn:G; [ | reflexivity ].
    cbn [lt0_prop]. apply Z.ltb_ge.
    apply (computeTimeUnits_nonneg (x - now) u); [ lra | exact G ]. }
  rewrite T. reflexivity.
Qed.

Lemma relativeTimeFormatId_future_witness :
  exists u,
    FormatId.unit
      (relativeTimeFormatId 0 7200000
         {| RelativeOptions.unit := "hour"; RelativeOptions.style := None |})
    = u ++ "s" ++ "-until" ++ "-" ++ style_or_long None.
Proof.
  apply (relativeTimeFormatId_future 0 7200000 "hour" None). lra.
Defined.

Lemma Math_round_frac (a n : Z) :
  0 < n -> Math_round (inject_Z a / inject_Z n) = (2 * a + n) / (2 * n).
Proof.
  intros P. rewrite Zdiv_Qdiv. unfold Math_round. apply Qfloor_comp.
  rewrite inject_Z_plus, !inject_Z_mult.
  field. intros H. apply (inject_Z_injective n 0) in H. lia.
Qed.

Lemma Math_round_year (day k : Z) :
  Math_round (inject_Z day * 400 / 146097 * inject_Z k)
  = (2 * (400 * k * day) + 146097) / (2 * 146097).
Proof.
  rewrite <- (Math_round_frac (400 * k * day) 146097) by lia.
  apply Math_round_comp. rewrite !inject_Z_mult.
  change (inject_Z 400) with 400%Q. change (inject_Z 146097) with 146097%Q.
  field.
Qed.

(** The counts that the best-fit choice reads, in integer arithmetic. *)
Lemma cascade_Z (v : Q) :
  let u := computeTimeUnits v in
  Units.millisecond u = Math_round v
  /\ Units.second u = (2 * Units.millisecond u + 1000) / 2000
  /\ Units.minute u = (2 * Units.second u + 60) / 120
  /\ Units.hour u = (2 * Units.minute u + 60) / 120
  /\ Units.day u = (2 * Units.hour u + 24) / 48
  /\ Units.week u = (2 * Units.day u + 7) / 14
  /\ Units.month u = (9600 * Units.day u + 146097) / 292194
  /\ Units.year u = (800 * Units.day u + 146097) / 292194.
Proof.
  intros u. subst u. unfold computeTimeUnits.
  cbn [Units.millisecond Units.second Units.minute Units.hour Units.day
       Units.week Units.month Units.quarter Units.year].
  split; [ reflexivity | ].
  split; [ apply (Math_round_frac _ 1000); lia | ].
  split; [ apply (Math_round_frac _ 60); lia | ].
  split; [ apply (Math_round_frac _ 60); lia | ].
  split; [ apply (Math_round_frac _ 24); lia | ].
  split; [ apply (Math_round_frac _ 7); lia | ].
  set (day := Math_round (inject_Z (Math_round (inject_Z (Math_round
                (inject_Z (Math_round (inject_Z (Math_round v) / 1000)) / 60))
                / 60)) / 24)).
  split.
  - change 12%Q with (inject_Z 12). rewrite (Math_round_year day 12).
    f_equal; lia.
  - transitivity (Math_round (inject_Z day * 400 / 146097 * inject_Z 1)).
    + apply Math_round_comp. change (inject_Z 1) with 1%Q. ring.
    + rewrite (Math_round_year day 1). f_equal; lia.
Qed.

(** X14: The cascade in integer arithmetic: after the first rounding every
    count is a floor division of integers, the month, quarter and year
    straight from the day count. *)
Theorem computeTimeUnits_integer (v : Q) :
  let u := computeTimeUnits v in
  Units.millisecond u = Math_round v
  /\ Units.second u = (2 * Units.millisecond u + 1000) / 2000
  /\ Units.minute u = (2 * Units.second u + 60) / 120
  /\ Units.hour u = (2 * Units.minute u + 60) / 120
  /\ Units.day u = (2 * Units.hour u + 24) / 48
  /\ Units.week u = (2 * Units.day u + 7) / 14
  /\ Units.month u = (9600 * Units.day u + 146097) / 292194
  /\ Units.quarter u = (3200 * Units.day u + 146097) / 292194
  /\ Units.year u = (800 * Units.day u + 146097) / 292194.
Proof.
  intros u.
  destruct (cascade_Z v) as (Ems & Es & Em & Eh & Ed & Ew & Emo & Ey).
  fold u in Ems, Es, Em, Eh, Ed, Ew, Emo, Ey.
  repeat (split; [ assumption | ]).
  split; [ | exact Ey ].
  subst u. unfold computeTimeUnits. cbn [Units.quarter Units.day].
  change 4%Q with (inject_Z 4). rewrite Math_round_year. f_equal; lia.
Qed.

(** X15: Only the minute can be reported as 0: when the best-fit unit is the
    hour, the day, the week, the month or the year, its count is at least
    1 in absolute value. *)
Theorem getBestMatchUnit_nonzero (v : Q) :
  let units := computeTimeUnits v in
  getBestMatchUnit units <> "minute" ->
  exists m, Units.get units (getBestMatchUnit units) = Some m
            /\ 1 <= Z.abs m.
Proof.
  intros units.
  destruct (cascade_Z v) as (_ & _ & _ & Eh & Ed & Ew & Em & Ey).
  fold units in Eh, Ed, Ew, Em, Ey.
  unfold getBestMatchUnit.
  destruct (Z.ltb_spec (Z.abs (Units.minute units)) 45) as [ _ | Lm ];
    [ intros N; now contradiction N | intros _ ].
  destruct (Z.ltb_spec (Z.abs (Units.hour units)) 22) as [ _ | Lh ].
  { exists (Units.hour units). split; [ reflexivity | ].
    rewrite Eh. Z.to_euclidean_division_equations. lia. }
  destruct (Z.ltb_spec (Z.abs (Units.day units)) 7) as [ _ | Ld ].
  { exists (Units.day units). split; [ reflexivity | ].
    rewrite Ed. Z.to_euclidean_division_equations. lia. }
  destruct (Z.ltb_spec (Z.abs (Units.week units)) 4) as [ _ | Lw ].
  { exists (Units.week units). split; [ reflexivity | ].
    rewrite Ew. Z.to_euclidean_division_equations. lia. }
  destruct (Z.ltb_spec (Z.abs (Units.month units)) 11) as [ _ | Lmo ].
  { exists (Units.month units). split; [ reflexivity | ].
    rewrite Em. rewrite Ew in Lw. Z.to_euclidean_division_equations. lia. }
  exists (Units.year units). split; [ reflexivity | ].
  rewrite Ey. rewrite Em in Lmo. Z.to_euclidean_division_equations. lia.
Qed.

Lemma getBestMatchUnit_nonzero_witness :
  exists m,
    Units.get (computeTimeUnits (-7200000))
      (getBestMatchUnit (computeTimeUnits (-7200000))) = Some m
    /\ 1 <= Z.abs m.
Proof.
  apply (getBestMatchUnit_nonzero (-7200000)). vm_compute. discriminate.
Defined.

(** ** relativeTimeFormatId, relativePart *)

(** X16: A target from 30.5005 seconds in the past to just under 29.4995
    seconds ahead, formatted in the best-fit unit, is "minutes-until" with
    the magnitude 0: the rounded minute is 0, which is not below 0, so a
    past this close is not told from the future. *)
Theorem relativeTimeFormatId_around_now (now x : Q) (style : option string) :
  (- (61001 # 2) <= x - now)%Q -> (x - now < 58999 # 2)%Q ->
  relativeTimeFormatId now x
    {| RelativeOptions.unit := "bestFit"; RelativeOptions.style := style |}
  = {| FormatId.unit := "minutes-until-" ++ style_or_long style;
       FormatId.value := Num 0 |}.
Proof.
  intros Lo Hi.
  destruct (cascade_Z (x - now)) as (Ems & Es & Em & _).
  set (units := computeTimeUnits (x - now)) in *.
  assert (Bms : -30500 <= Units.millisecond units <= 29499).
  { rewrite Ems. unfold Math_round. split.
    - change (-30500) with (Qfloor (inject_Z (-30500))).
      apply Qfloor_resp_le. change (inject_Z (-30500)) with (-30500)%Q. lra.
    - assert (Qfloor (x - now + (1 # 2)) < 29500); [ | lia ].
      rewrite Zlt_Qlt.
      apply Qle_lt_trans with (x - now + (1 # 2))%Q; [ apply Qfloor_le | ].
      change (inject_Z 29500) with 29500%Q. lra. }
  assert (Z0 : Units.minute units = 0).
  { rewrite Em, Es. Z.to_euclidean_division_equations. lia. }
  unfold relativeTimeFormatId.
  cbn [RelativeOptions.unit RelativeOptions.style]. fold units.
  rewrite String.eqb_refl.
  assert (B : getBestMatchUnit units = "minute").
  { unfold getBestMatchUnit. rewrite Z0. reflexivity. }
  rewrite B. change (Units.get units "minute") with (Some (Units.minute units)).
  rewrite Z0. reflexivity.
Qed.

Lemma relativeTimeFormatId_around_now_witness :
  relativeTimeFormatId 1000000 (1000000 - 30000)
    {| RelativeOptions.unit := "bestFit"; RelativeOptions.style := None |}
  = {| FormatId.unit := "minutes-until-" ++ style_or_long None;
       FormatId.value := Num 0 |}.
Proof.
  apply (relativeTimeFormatId_around_now 1000000 (1000000 - 30000) None);
    vm_compute; reflexivity || discriminate.
Defined.

(** X17: A unit that is neither bestFit nor a key of the units object is not
    checked: the key is built from it with the tense "-until", and the
    magnitude is [NaN]. *)
Theorem relativeTimeFormatId_unknown_unit (now x : Q) (unit : string)
  (style : option string) :
  unit <> "bestFit" -> ~ In unit Units.keys ->
  relativeTimeFormatId now x
    {| RelativeOptions.unit := unit; RelativeOptions.style := style |}
  = {| FormatId.unit := unit ++ "s-until-" ++ style_or_long style;
       FormatId.value := NaN |}.
Proof.
  intros NB NK. unfold relativeTimeFormatId.
  cbn [RelativeOptions.unit RelativeOptions.style].
  apply String.eqb_neq in NB. rewrite NB.
  assert (G : Units.get (computeTimeUnits (x - now)) unit = None).
  { unfold Units.get. unfold Units.keys in NK. cbn [In] in NK.
    repeat match goal with
           | |- context [String.eqb unit ?a] =>
               destruct (String.eqb_spec unit a) as [ -> | _ ];
               [ exfalso; apply NK; tauto | ]
           end.
    reflexivity. }
  rewrite G. reflexivity.
Qed.

Lemma relativeTimeFormatId_unknown_unit_witness :
  relativeTimeFormatId 0 5000
    {| RelativeOptions.unit := "fortnight"; RelativeOptions.style := None |}
  = {| FormatId.unit := "fortnight" ++ "s-until-" ++ style_or_long None;
       FormatId.value := NaN |}.
Proof.
  apply (relativeTimeFormatId_unknown_unit 0 5000 "fortnight" None).
  - discriminate.
  - simpl. intuition discriminate.
Defined.

Lemma string_append_assoc (a b c : string) : (a ++ b) ++ c = a ++ b ++ c.
Proof.
  induction a as [ | x a IH ]; simpl; [ reflexivity | now rewrite IH ].
Qed.

(** X19: For a finite difference, [relativePart] returns the magnitude
    that [relativeTimeFormatId] returns with the best-fit unit, and its
    unit is the start of that key, which goes on with the tense and the
    style. *)
Theorem relativePart_relativeTimeFormatId (now x : Q) (style : option string) :
  let r := relativeTimeFormatId now x
             {| RelativeOptions.unit := "bestFit";
                RelativeOptions.style := style |} in
  let p := relativePart (x - now) in
  FormatId.value r = FormatId.value p
  /\ exists tense,
      (tense = "-ago" \/ tense = "-until")
      /\ FormatId.unit r
         = FormatId.unit p ++ tense ++ "-" ++ style_or_long style.
Proof.
  intros r p. subst r p. unfold relativeTimeFormatId, relativePart.
  cbn [RelativeOptions.unit RelativeOptions.style FormatId.value
       FormatId.unit].
  rewrite String.eqb_refl.
  set (units := computeTimeUnits (x - now)).
  destruct (getBestMatchUnit_key units) as [v ->].
  split; [ reflexivity | ].
  exists (if v <? 0 then "-ago" else "-until"). split.
  - destruct (v <? 0); auto.
  - cbn [lt0_prop]. rewrite string_append_assoc. reflexivity.
Qed.

(** ** UnitFormat and getFormattedUnit *)

Lemma includes_In (a : list string) (x : string) :
  includes a x = true <-> In x a.
Proof.
  unfold includes. rewrite existsb_exists. split.
  - intros (y & I & E). apply String.eqb_eq in E. now subst.
  - intros I. exists x. split; [ exact I | apply String.eqb_refl ].
Qed.

Lemma unitFormatGroups_get (group : string) (g : UnitGroup.t) :
  get group unitFormatGroups = Some g ->
  (group = "duration"
   /\ g = {| UnitGroup.units := ["second"; "minute"; "hour"; "day"; "month"];
             UnitGroup.styles := ["narrow"];
             UnitGroup.rounding := 1%Q |})
  \/ (group = "digital"
      /\ g = {| UnitGroup.units :=
                  ["byte"; "kilobyte"; "megabyte"; "gigabyte"; "terabyte"];
                UnitGroup.styles := ["short"];
                UnitGroup.rounding := (8 # 10)%Q |}).
Proof.
  unfold unitFormatGroups. cbn [get].
  destruct (String.eqb_spec "duration" group) as [ <- | _ ].
  - intros [= <-]. now left.
  - destruct (String.eqb_spec "digital" group) as [ <- | _ ];
      [ | discriminate ].
    intros [= <-]. now right.
Qed.

(** X20: [UnitFormat] accepts exactly a unit of one of the groups with a style
    of that group, and then the message id is group-unit-style; an unknown
    unit and a style outside the group are [RangeError]s, the unit checked
    first. *)
Theorem UnitFormat_cases (unit style : string) :
  match UnitFormat unit style with
  | Return id =>
      exists group g,
        get group unitFormatGroups = Some g
        /\ In unit (UnitGroup.units g) /\ In style (UnitGroup.styles g)
        /\ id = group ++ "-" ++ unit ++ "-" ++ style
  | Throw e =>
      ((forall group g, get group unitFormatGroups = Some g ->
                        ~ In unit (UnitGroup.units g))
       /\ e = RangeError ("invalid value " ++ unit ++ " for option unit"))
      \/ (exists group g,
             get group unitFormatGroups = Some g
             /\ In unit (UnitGroup.units g)
             /\ ~ In style (UnitGroup.styles g)
             /\ e = RangeError
                      ("invalid value " ++ style ++ " for option style"))
  end.
Proof.
  unfold UnitFormat, getUnitFormatGroupName, unitFormatGroups.
  cbn [getUnitFormatGroupName_in UnitGroup.units].
  fold unitFormatGroups.
  set (dur := ["second"; "minute"; "hour"; "day"; "month"]).
  set (dig := ["byte"; "kilobyte"; "megabyte"; "gigabyte"; "terabyte"]).
  assert (K : forall (group : string) (l st : list string) (r : Q),
             get group unitFormatGroups
             = Some {| UnitGroup.units := l; UnitGroup.styles := st;
                       UnitGroup.rounding := r |} ->
             includes l unit = true ->
             match
               (let* g := member group unitFormatGroups in
                if negb (includes (UnitGroup.styles g) style)
                then Throw (RangeError
                              ("invalid value " ++ style ++ " for option style"))
                else Return (group ++ "-" ++ unit ++ "-" ++ style))
             with
             | Return id =>
                 exists group g,
                   get group unitFormatGroups = Some g
                   /\ In unit (UnitGroup.units g)
                   /\ In style (UnitGroup.styles g)
                   /\ id = group ++ "-" ++ unit ++ "-" ++ style
             | Throw e =>
                 ((forall group g, get group unitFormatGroups = Some g ->
                                   ~ In unit (UnitGroup.units g))
                  /\ e = RangeError
                           ("invalid value " ++ unit ++ " for option unit"))
                 \/ (exists group g,
                        get group unitFormatGroups = Some g
                        /\ In unit (UnitGroup.units g)
                        /\ ~ In style (UnitGroup.styles g)
                        /\ e = RangeError
                                 ("invalid value " ++ style
                                  ++ " for option style"))
             end).
  { intros group l st r G I. unfold member. rewrite G. cbn [bind].
    cbn [UnitGroup.styles].
    destruct (includes st style) eqn:S; cbn [negb].
    - eexists; eexists. split; [ exact G | ].
      cbn [UnitGroup.units UnitGroup.styles].
      split; [ now apply includes_In | ].
      split; [ now apply includes_In | reflexivity ].
    - right. eexists; eexists. split; [ exact G | ].
      cbn [UnitGroup.units UnitGroup.styles].
      split; [ now apply includes_In | ].
      split; [ | reflexivity ].
      intros I'. apply includes_In in I'. congruence. }
  destruct (includes dur unit) eqn:I1.
  { apply (K "duration" dur ["narrow"] 1%Q); [ reflexivity | exact I1 ]. }
  destruct (includes dig unit) eqn:I2.
  { apply (K "digital" dig ["short"] (8 # 10)%Q); [ reflexivity | exact I2 ]. }
  left. split; [ | reflexivity ].
  intros group g G I. subst dur dig.
  destruct (unitFormatGroups_get _ _ G) as [ [_ ->] | [_ ->] ];
    cbn [UnitGroup.units] in I; apply includes_In in I; congruence.
Qed.

(** [getFormattedUnit] on a finite magnitude, a group of the table and a
    style of the group. *)
Lemma getFormattedUnit_finite (type style : string) (units : list UnitDatum.t)
  (g : UnitGroup.t) (v : Q) :
  get type unitFormatData = Some units ->
  get type unitFormatGroups = Some g ->
  includes (UnitGroup.styles g) style = true ->
  exists u,
    nth_error units (Spec.scale units (UnitGroup.rounding g) v) = Some u
    /\ getFormattedUnit type style (Num v)
       = Return
           (formatValue (type ++ "-" ++ UnitDatum.name u ++ "-" ++ style)
              (double_div
                 (Math_round_number
                    (double_mul
                       (double_div (Num v) (inject_Z (UnitDatum.value u)))
                       100))
                 100)).
Proof.
  intros D G I.
  set (scale := Spec.scale units (UnitGroup.rounding g) v).
  assert (B : (scale < List.length units)%nat).
  { apply scale_in_range.
    destruct (unitFormat_tables _ _ _ D G) as ([ -> | -> ] & D' & _);
      cbn in D'; injection D' as <-; discriminate. }
  destruct (nth_error units scale) as [ u | ] eqn:N.
  2:{ apply nth_error_None in N. lia. }
  exists u. split; [ reflexivity | ].
  unfold getFormattedUnit. simpl isNaN_parseInt. cbv iota.
  rewrite D. unfold member. rewrite G. unfold bind.
  rewrite I. simpl negb. cbv iota.
  rewrite scale_loop_spec. fold scale. rewrite N.
  rewrite (UnitFormat_of_table _ _ _ _ _ _ D G I N).
  reflexivity.
Qed.

Lemma unitFormatData_get (type : string) :
  match get type unitFormatData with
  | Some units =>
      exists g, get type unitFormatGroups = Some g
                /\ map UnitDatum.name units = UnitGroup.units g
                /\ Forall (fun u => 0 < UnitDatum.value u) units
                /\ (0 < UnitGroup.rounding g)%Q
  | None => get type unitFormatGroups = None
  end.
Proof.
  unfold unitFormatData, unitFormatGroups. cbn [get].
  destruct (String.eqb "duration" type).
  - eexists. split; [ reflexivity | ]. split; [ reflexivity | ].
    split; [ repeat constructor | reflexivity ].
  - destruct (String.eqb "digital" type); [ | reflexivity ].
    eexists. split; [ reflexivity | ]. split; [ reflexivity | ].
    split; [ repeat constructor | reflexivity ].
Qed.

(** X21: On a finite magnitude [getFormattedUnit] throws exactly for a type
    that is not in the table or a style that is not the group's, the type
    checked first; otherwise it asks for the message type-unit-style with
    a unit of the group. *)
Theorem getFormattedUnit_cases (type style : string) (v : Q) :
  match getFormattedUnit type style (Num v) with
  | Return p =>
      exists units g u value,
        get type unitFormatData = Some units
        /\ get type unitFormatGroups = Some g
        /\ In style (UnitGroup.styles g)
        /\ In u units
        /\ p = formatValue (type ++ "-" ++ UnitDatum.name u ++ "-" ++ style)
                 value
  | Throw e =>
      (get type unitFormatData = None
       /\ e = RangeError ("invalid type " ++ type))
      \/ (exists g, get type unitFormatGroups = Some g
                    /\ ~ In style (UnitGroup.styles g)
                    /\ e = RangeError
                             ("invalid style " ++ style ++ " for type " ++ type))
  end.
Proof.
  pose proof (unitFormatData_get type) as T.
  destruct (get type unitFormatData) as [ units | ] eqn:D.
  - destruct T as (g & G & _).
    destruct (includes (UnitGroup.styles g) style) eqn:I.
    + destruct (getFormattedUnit_finite type style units g v D G I)
        as (u & N & ->).
      exists units, g, u. eexists.
      split; [ reflexivity | ]. split; [ exact G | ].
      split; [ now apply includes_In | ].
      split; [ eapply nth_error_In; eauto | reflexivity ].
    + unfold getFormattedUnit. simpl isNaN_parseInt. cbv iota.
      rewrite D. unfold member. rewrite G. cbn [bind]. rewrite I.
      cbn [negb]. right. exists g. split; [ reflexivity | ].
      split; [ | reflexivity ].
      intros I'. apply includes_In in I'. congruence.
  - unfold getFormattedUnit. simpl isNaN_parseInt. cbv iota.
    rewrite D. left. split; reflexivity.
Qed.

(** X23: The unit chosen brackets the magnitude: unless it is the first unit,
    the magnitude is at least rounding * base of the unit chosen; unless it
    is the last, the magnitude is below rounding * base of the next unit;
    and every magnitude below the threshold of the second unit, so every
    negative one, stays in the first unit. *)
Theorem getFormattedUnit_bracket (type style : string)
  (units : list UnitDatum.t) (g : UnitGroup.t) (v : Q) :
  get type unitFormatData = Some units ->
  get type unitFormatGroups = Some g ->
  includes (UnitGroup.styles g) style = true ->
  exists (scale : nat) (u : UnitDatum.t) (value : number),
    nth_error units scale = Some u
    /\ getFormattedUnit type style (Num v)
       = Return
           (formatValue (type ++ "-" ++ UnitDatum.name u ++ "-" ++ style)
              value)
    /\ ((1 <= scale)%nat ->
        (inject_Z (UnitDatum.value u) * UnitGroup.rounding g <= v)%Q)
    /\ (forall u', nth_error units (S scale) = Some u' ->
                   (v < inject_Z (UnitDatum.value u') * UnitGroup.rounding g)%Q)
    /\ (forall u1, nth_error units 1 = Some u1 ->
                   (v < inject_Z (UnitDatum.value u1) * UnitGroup.rounding g)%Q ->
                   scale = O).
Proof.
  intros D G I.
  destruct (getFormattedUnit_finite type style units g v D G I)
    as (u & N & E).
  pose proof (scale_first_below units (UnitGroup.rounding g) v) as SF.
  cbv zeta in SF.
  remember (Spec.scale units (UnitGroup.rounding g) v) as scale eqn:Hs.
  clear Hs.
  exists scale, u. eexists. split; [ exact N | ]. split; [ exact E | ].
  destruct SF as [ (i & ui & Li & Ni & Bi & Fi & Ei) | (F & El) ].
  - split; [ | split ].
    + intros Ls. apply Qnot_lt_le. apply (Fi scale u); [ lia | exact N ].
    + intros u' N'. replace (S scale) with i in N' by lia.
      assert (u' = ui) by congruence. now subst u'.
    + intros u1 N1 B1.
      destruct (Nat.eq_dec i 1) as [ -> | NE ]; [ lia | ].
      exfalso. apply (Fi 1%nat u1); [ lia | exact N1 | exact B1 ].
  - split; [ | split ].
    + intros Ls. apply Qnot_lt_le. apply (F scale u); [ lia | exact N ].
    + intros u' N'.
      assert (S scale < List.length units)%nat
        by (apply nth_error_Some; congruence).
      lia.
    + intros u1 N1 B1. exfalso. apply (F 1%nat u1); [ lia | exact N1 | exact B1 ].
Qed.

Lemma getFormattedUnit_bracket_witness :
  exists (scale : nat) (u : UnitDatum.t) (value : number)
         (units : list UnitDatum.t),
    get "duration" unitFormatData = Some units
    /\ nth_error units scale = Some u
    /\ getFormattedUnit "duration" "narrow" (Num 7200)
       = Return
           (formatValue ("duration" ++ "-" ++ UnitDatum.name u ++ "-" ++ "narrow")
              value)
    /\ ((1 <= scale)%nat -> (inject_Z (UnitDatum.value u) * 1 <= 7200)%Q).
Proof.
  destruct (getFormattedUnit_bracket "duration" "narrow" _ _ 7200%Q
              eq_refl eq_refl eq_refl) as (scale & u & value & N & E & Lo & _).
  exists scale, u, value. eexists.
  split; [ reflexivity | split; [ exact N | split; [ exact E | exact Lo ] ] ].
Defined.

(** ** RelativeDate *)

Lemma style_or_long_idem (style : option string) :
  style_or_long (Some (style_or_long style)) = style_or_long style.
Proof.
  destruct style as [ s | ]; [ | reflexivity ].
  simpl. destruct (String.eqb_spec s EmptyString) as [ -> | N ];
    [ reflexivity | ].
  apply String.eqb_neq in N. simpl. now rewrite N.
Qed.

Lemma RelativeDate_format_within (now : Q) (maxFormatter_format : Q -> string)
  (options : option (option string)) (t : Q) :
  (now - t <= 864000000)%Q ->
  RelativeDate_format now maxFormatter_format options (Time t) None
  = relativeTime
      (relativeTimeFormatId now t
         {| RelativeOptions.unit := "bestFit";
            RelativeOptions.style := Some (RelativeDate_style options) |}).
Proof.
  intros H. unfold RelativeDate_format. cbn [maxDiff_or_default].
  replace (Qltb (86400 * 10) ((now - t) / 1000)) with false; [ reflexivity | ].
  symmetry. apply Qltb_nlt. apply Qle_not_lt.
  apply Qle_shift_div_r; [ reflexivity | ].
  setoid_replace (86400 * 10 * 1000)%Q with 864000000%Q by reflexivity.
  exact H.
Qed.

(** X25: [format] of [RelativeDate]: an invalid time gives the message
    incorrectDate; a limit of 0 is the default of ten days; with it a time
    more than 864000 seconds in the past is shown as an absolute date, and
    every other time, every future one among them, as a relative time in
    the best-fit unit. *)
Theorem RelativeDate_format_limit (now : Q) (maxFormatter_format : Q -> string)
  (options : option (option string)) (t : Q) (maxDiff : option Q) :
  RelativeDate_format now maxFormatter_format options TimeNaN maxDiff
  = incorrectDate
  /\ RelativeDate_format now maxFormatter_format options (Time t) (Some 0%Q)
     = RelativeDate_format now maxFormatter_format options (Time t) None
  /\ ((864000000 < now - t)%Q ->
      RelativeDate_format now maxFormatter_format options (Time t) None
      = absoluteDate (maxFormatter_format t))
  /\ ((now - t <= 864000000)%Q ->
      RelativeDate_format now maxFormatter_format options (Time t) None
      = relativeTime
          (relativeTimeFormatId now t
             {| RelativeOptions.unit := "bestFit";
                RelativeOptions.style := Some (RelativeDate_style options) |})).
Proof.
  split; [ reflexivity | ]. split; [ reflexivity | ].
  split; [ | apply RelativeDate_format_within ].
  intros H. unfold RelativeDate_format. cbn [maxDiff_or_default].
  replace (Qltb (86400 * 10) ((now - t) / 1000)) with true; [ reflexivity | ].
  symmetry. apply Qltb_lt. apply Qlt_shift_div_l; [ reflexivity | ].
  setoid_replace (86400 * 10 * 1000)%Q with 864000000%Q by reflexivity.
  exact H.
Qed.

(** X26: With the default limit, a time in the past that is still shown as a
    relative time is counted in minutes, hours, days or weeks, never in
    months or years, and as a week it is exactly 1 week. *)
Theorem RelativeDate_format_past (now : Q) (maxFormatter_format : Q -> string)
  (options : option (option string)) (t : Q) :
  (t <= now)%Q -> (now - t <= 864000000)%Q ->
  exists (u tense : string) (m : Z),
    RelativeDate_format now maxFormatter_format options (Time t) None
    = relativeTime
        {| FormatId.unit :=
             u ++ "s" ++ tense ++ "-" ++ RelativeDate_style options;
           FormatId.value := Num (inject_Z m) |}
    /\ In u ["minute"; "hour"; "day"; "week"]
    /\ (tense = "-ago" \/ tense = "-until")
    /\ 0 <= m
    /\ (u = "minute" -> m < 45)
    /\ (u = "hour" -> m < 22)
    /\ (u = "day" -> m < 7)
    /\ (u = "week" -> m = 1).
Proof.
  intros Past Lim.
  rewrite (RelativeDate_format_within now maxFormatter_format options t Lim).
  unfold relativeTimeFormatId.
  cbn [RelativeOptions.unit RelativeOptions.style].
  rewrite String.eqb_refl.
  assert (St : style_or_long (Some (RelativeDate_style options))
               = RelativeDate_style options).
  { destruct options as [ style | ]; [ apply style_or_long_idem | reflexivity ]. }
  rewrite St.
  destruct (cascade_Z (t - now)) as (Ems & Es & Em & Eh & Ed & Ew & _).
  set (units := computeTimeUnits (t - now)) in *.
  assert (Bms : -864000000 <= Units.millisecond units <= 0).
  { rewrite Ems. unfold Math_round. split.
    - change (-864000000) with (Qfloor (inject_Z (-864000000))).
      apply Qfloor_resp_le.
      change (inject_Z (-864000000)) with (-864000000)%Q. lra.
    - assert (Qfloor (t - now + (1 # 2)) < 1); [ | lia ].
      rewrite Zlt_Qlt.
      apply Qle_lt_trans with (t - now + (1 # 2))%Q; [ apply Qfloor_le | ].
      change (inject_Z 1) with 1%Q. lra. }
  assert (Bs : -864000 <= Units.second units <= 0)
    by (rewrite Es; Z.to_euclidean_division_equations; lia).
  assert (Bm : -14400 <= Units.minute units <= 0)
    by (rewrite Em; Z.to_euclidean_division_equations; lia).
  assert (Bh : -240 <= Units.hour units <= 0)
    by (rewrite Eh; Z.to_euclidean_division_equations; lia).
  assert (Bd : -10 <= Units.day units <= 0)
    by (rewrite Ed; Z.to_euclidean_division_equations; lia).
  assert (Bw : -1 <= Units.week units <= 0)
    by (rewrite Ew; Z.to_euclidean_division_equations; lia).
  assert (T : forall v : Z,
             (if v <? 0 then "-ago" else "-until") = "-ago"
             \/ (if v <? 0 then "-ago" else "-until") = "-until")
    by (intros v; destruct (v <? 0); auto).
  unfold getBestMatchUnit.
  destruct (Z.ltb_spec (Z.abs (Units.minute units)) 45) as [ Lm | Lm ].
  { exists "minute", (if Units.minute units <? 0 then "-ago" else "-until"),
      (Z.abs (Units.minute units)).
    split; [ reflexivity | ]. simpl In.
    repeat split; auto using Z.abs_nonneg; try discriminate; tauto. }
  destruct (Z.ltb_spec (Z.abs (Units.hour units)) 22) as [ Lh | Lh ].
  { exists "hour", (if Units.hour units <? 0 then "-ago" else "-until"),
      (Z.abs (Units.hour units)).
    split; [ reflexivity | ]. simpl In.
    repeat split; auto using Z.abs_nonneg; try discriminate; tauto. }
  destruct (Z.ltb_spec (Z.abs (Units.day units)) 7) as [ Ld | Ld ].
  { exists "day", (if Units.day units <? 0 then "-ago" else "-until"),
      (Z.abs (Units.day units)).
    split; [ reflexivity | ]. simpl In.
    repeat split; auto using Z.abs_nonneg; try discriminate; tauto. }
  destruct (Z.ltb_spec (Z.abs (Units.week units)) 4) as [ Lw | Lw ]; [ | lia ].
  exists "week", (if Units.week units <? 0 then "-ago" else "-until"),
    (Z.abs (Units.week units)).
  split; [ reflexivity | ]. simpl In.
  assert (W1 : Z.abs (Units.week units) = 1).
  { rewrite Ew in *. Z.to_euclidean_division_equations. lia. }
  repeat split; auto using Z.abs_nonneg; try discriminate; tauto.
Qed.

Lemma RelativeDate_format_past_witness :
  exists (u tense : string) (m : Z),
    RelativeDate_format 864000000 (fun _ => "2026-01-01") None (Time 0) None
    = relativeTime
        {| FormatId.unit := u ++ "s" ++ tense ++ "-" ++ RelativeDate_style None;
           FormatId.value := Num (inject_Z m) |}
    /\ In u ["minute"; "hour"; "day"; "week"]
    /\ (tense = "-ago" \/ tense = "-until")
    /\ 0 <= m
    /\ (u = "minute" -> m < 45)
    /\ (u = "hour" -> m < 22)
    /\ (u = "day" -> m < 7)
    /\ (u = "week" -> m = 1).
Proof.
  apply (RelativeDate_format_past 864000000 (fun _ => "2026-01-01") None 0);
    vm_compute; discriminate.
Defined.

(** ** The scale loop on any table *)

Lemma first_index_mono (l : list UnitDatum.t) (r v w : Q) :
  (v <= w)%Q ->
  forall i,
    match Spec.first_index i l r v, Spec.first_index i l r w with
    | Some a, Some b => (a <= b)%nat
    | Some a, None => (a < i + List.length l)%nat
    | None, Some _ => False
    | None, None => True
    end.
Proof.
  intros L. induction l as [ | u l IH ]; intros i; cbn [Spec.first_index];
    [ exact I | ].
  destruct (Qltb v (inject_Z (UnitDatum.value u) * r)) eqn:Bv;
    destruct (Qltb w (inject_Z (UnitDatum.value u) * r)) eqn:Bw.
  - lia.
  - specialize (IH (S i)).
    destruct (Spec.first_index (S i) l r w) as [ b | ] eqn:Fw.
    + destruct (first_index_Some r w l (S i) b Fw) as (j & _ & -> & _). lia.
    + simpl. lia.
  - apply Qltb_lt in Bw. apply Qltb_nlt in Bv. exfalso. apply Bv. lra.
  - specialize (IH (S i)).
    destruct (Spec.first_index (S i) l r v), (Spec.first_index (S i) l r w);
      simpl; try lia; exact IH.
Qed.

(** X24: On any non-empty table the loop ends on an index of the table, and a
    larger magnitude never has a smaller scale. *)
Theorem scale_loop_monotone (units : list UnitDatum.t) (rounding v w : Q) :
  units <> [] -> (v <= w)%Q ->
  exists a b : nat,
    scale_loop (List.length units - 1) 1 units rounding v 0 = Return a
    /\ scale_loop (List.length units - 1) 1 units rounding w 0 = Return b
    /\ (a <= b)%nat /\ (b < List.length units)%nat.
Proof.
  intros NE L.
  exists (Spec.scale units rounding v), (Spec.scale units rounding w).
  rewrite !scale_loop_spec.
  split; [ reflexivity | ]. split; [ reflexivity | ].
  split; [ | now apply scale_in_range ].
  unfold Spec.scale.
  pose proof (first_index_mono (tl units) rounding v w L 1) as M.
  destruct units as [ | u0 l ]; [ contradiction | ]. cbn [tl] in *.
  destruct (Spec.first_index 1 l rounding v),
    (Spec.first_index 1 l rounding w); simpl in *; lia.
Qed.

Lemma scale_loop_monotone_witness :
  exists a b : nat,
    scale_loop 1 1
      [ {| UnitDatum.name := "byte"; UnitDatum.value := 1 |};
        {| UnitDatum.name := "kilobyte"; UnitDatum.value := 1024 |} ]
      (8 # 10) 100 0 = Return a
    /\ scale_loop 1 1
         [ {| UnitDatum.name := "byte"; UnitDatum.value := 1 |};
           {| UnitDatum.name := "kilobyte"; UnitDatum.value := 1024 |} ]
         (8 # 10) 2000 0 = Return b
    /\ (a <= b)%nat /\ (b < 2)%nat.
Proof.
  apply (scale_loop_monotone
           [ {| UnitDatum.name := "byte"; UnitDatum.value := 1 |};
             {| UnitDatum.name := "kilobyte"; UnitDatum.value := 1024 |} ]
           (8 # 10) 100 2000); [ discriminate | lra ].
Defined.
